(** * TopstepX MCP server: session, gateway, reference-data cache, tool handlers

    A shallow embedding of [src/auth.ts], [src/data.ts], [src/tools.ts],
    of the tool dispatch, the resource reads and the start-up of
    [src/index.ts], and of the level selection of [src/logger.ts].

    - JSON payloads, tool arguments and cached entries are values of
      [JsValue], with the coercions the code relies on (truthiness,
      property reads, property keys, [length]).  Numbers are modelled
      by integers.
    - The three module-level objects used as maps ([accountsCache],
      [contractsCache], [symbolToContractIdMap]) are association lists of
      own properties kept in JavaScript property order; a read that
      finds no own property goes on to what every object inherits.
    - Every [async] function is a computation in the monad [M]: it takes
      the current [World], returns either a value or a thrown error, and
      the next world.  Mutations made before a [throw] persist, as they
      do in JavaScript.  Operations run one after the other; the
      interleaving of two operations at their suspension points is not
      modelled.
    - The remote platform is an oracle: the reply to the [n]-th HTTP call
      may depend on [n] and on the call itself, and takes some time to
      arrive.  The world records every HTTP call sent and every gateway
      request started; these two records are the only additions to the
      state of the program.
    - Logging has no effect on the values studied here and is left out
      of the computations; which levels are written is modelled apart. *)

From Stdlib Require Import String Ascii ZArith NArith List Bool Lia.
From Stdlib Require Import DecimalString DecimalPos DecimalZ.
Import ListNotations.

Local Open Scope string_scope.
Local Open Scope Z_scope.
Local Open Scope list_scope.

(** ** JavaScript values *)

Set Warnings "-register-all".

Inductive JsValue : Type :=
| JUndefined
| JNull
| JBool (b : bool)
| JNum (n : Z)
| JStr (s : string)
| JArr (items : list JsValue)
| JObj (fields : list (string * JsValue)).

(** Errors that can be thrown: [new Error(message)], a [TypeError] raised
    by the runtime, and the error with which axios rejects (with the
    response when the server answered outside 2xx, without it on a
    transport failure). *)
Inductive JsError : Type :=
| Err (message : JsValue)
| TypeErr
| AxiosErr (response : option (Z * JsValue)).

Inductive Result (A : Type) : Type :=
| Ok (a : A)
| Throw (e : JsError).
Arguments Ok {A} a.
Arguments Throw {A} e.

Module Js.

(** [!!v] *)
Definition truthy (v : JsValue) : bool :=
  match v with
  | JUndefined | JNull => false
  | JBool b => b
  | JNum n => negb (n =? 0)
  | JStr s => negb (s =? "")%string
  | JArr _ | JObj _ => true
  end.

(** [a || b] *)
Definition or (a b : JsValue) : JsValue := if truthy a then a else b.

(** [v !== undefined] *)
Definition defined (v : JsValue) : bool :=
  match v with JUndefined => false | _ => true end.

(** [v === 'literal'] *)
Definition is_str (v : JsValue) (lit : string) : bool :=
  match v with JStr s => (s =? lit)%string | _ => false end.

(** [a === b] on data: primitives compare by value; two arrays or
    objects obtained separately are never the same object. *)
Definition strict_eq (a b : JsValue) : bool :=
  match a, b with
  | JUndefined, JUndefined => true
  | JNull, JNull => true
  | JBool x, JBool y => Bool.eqb x y
  | JNum x, JNum y => x =? y
  | JStr x, JStr y => (x =? y)%string
  | _, _ => false
  end.

(** Destructuring default: [{ x = d }] takes [d] when [x] is undefined. *)
Definition default (v d : JsValue) : JsValue :=
  match v with JUndefined => d | _ => v end.

Fixpoint assoc (k : string) (o : list (string * JsValue)) : JsValue :=
  match o with
  | [] => JUndefined
  | (k', v) :: o' => if (k' =? k)%string then v else assoc k o'
  end.

Definition string_of_N (n : N) : string :=
  NilZero.string_of_uint (N.to_uint n).

Definition string_of_Z (z : Z) : string :=
  NilZero.string_of_int (Z.to_int z).

(** A property key is an array index when it is the canonical decimal
    form of an integer below [2^32 - 1]. *)
Definition array_index (k : string) : option N :=
  match NilZero.uint_of_string k with
  | Some u =>
      let n := N.of_uint u in
      if ((string_of_N n =? k)%string && (n <? 4294967295)%N)%bool
      then Some n else None
  | None => None
  end.

Definition char_at (s : string) (i : nat) : JsValue :=
  match String.get i s with
  | Some c => JStr (String c EmptyString)
  | None => JUndefined
  end.

(** [v[k]] and [v.k] on data: own properties of objects, [length] and
    indices of arrays and strings; reading a property of [undefined]
    or [null] throws. *)
Definition get (v : JsValue) (k : string) : Result JsValue :=
  match v with
  | JUndefined | JNull => Throw TypeErr
  | JObj fs => Ok (assoc k fs)
  | JArr l =>
      if (k =? "length")%string then Ok (JNum (Z.of_nat (length l)))
      else match array_index k with
           | Some i => Ok (nth (N.to_nat i) l JUndefined)
           | None => Ok JUndefined
           end
  | JStr s =>
      if (k =? "length")%string then Ok (JNum (Z.of_nat (String.length s)))
      else match array_index k with
           | Some i => Ok (char_at s (N.to_nat i))
           | None => Ok JUndefined
           end
  | JBool _ | JNum _ => Ok JUndefined
  end.

(** The text of a value inside an array's [toString]. *)
Fixpoint to_string (v : JsValue) : string :=
  match v with
  | JUndefined => "undefined"
  | JNull => "null"
  | JBool true => "true"
  | JBool false => "false"
  | JNum n => string_of_Z n
  | JStr s => s
  | JArr l =>
      (fix join (l : list JsValue) : string :=
         match l with
         | [] => ""
         | [x] => match x with
                  | JUndefined | JNull => ""
                  | _ => to_string x
                  end
         | x :: (_ :: _) as tl =>
             ((match x with
               | JUndefined | JNull => ""
               | _ => to_string x
               end) ++ "," ++ join tl)%string
         end) l
  | JObj _ => "[object Object]"
  end.

(** [ToPropertyKey]: the key under which [o[v]] reads and writes. *)
Definition key (v : JsValue) : string := to_string v.

(** [Number(s)] for the empty text and the decimal integer texts.
    Numbers are integers here, so the texts of other numbers
    (fractions, exponents, hexadecimal digits, blanks around the
    digits) are outside what is modelled; they are read as [NaN]
    ([None]) like the texts that are no numbers. *)
Definition parse_number (s : string) : option Z :=
  if (s =? "")%string then Some 0
  else option_map Z.of_int (NilZero.int_of_string s).

(** [ToNumber]; [None] is [NaN]. *)
Definition to_number (v : JsValue) : option Z :=
  match v with
  | JUndefined => None
  | JNull => Some 0
  | JBool b => Some (if b then 1 else 0)
  | JNum n => Some n
  | JStr s => parse_number s
  | JArr _ => parse_number (to_string v)
  | JObj _ => None
  end.

(** [v > 0] *)
Definition positive (v : JsValue) : bool :=
  match to_number v with
  | Some n => 0 <? n
  | None => false
  end.

(** The key addressed by [o[v - 1]]. *)
Definition pred_key (v : JsValue) : string :=
  match to_number v with
  | Some n => string_of_Z (n - 1)
  | None => "NaN"
  end.

(** [String(Number(k))]: the key that [o[Number(k)]] addresses. *)
Definition number_key (k : string) : string :=
  match parse_number k with
  | Some n => string_of_Z n
  | None => "NaN"
  end.

(** [v.slice(0, limit)] on an array or a string; any other receiver
    has no [slice] and the call throws. *)
Definition slice0 (v limit : JsValue) : Result JsValue :=
  let stop (len : nat) : nat :=
    match to_number limit with
    | Some n => if n <? 0 then Z.to_nat (Z.of_nat len + n)
                else Nat.min (Z.to_nat n) len
    | None => 0%nat
    end in
  match v with
  | JArr l => Ok (JArr (firstn (stop (length l)) l))
  | JStr s => Ok (JStr (substring 0 (stop (String.length s)) s))
  | _ => Throw TypeErr
  end.

End Js.

(** The names every object inherits. *)
Definition inherited_names : list string :=
  ["constructor"; "__defineGetter__"; "__defineSetter__"; "hasOwnProperty";
   "__lookupGetter__"; "__lookupSetter__"; "isPrototypeOf";
   "propertyIsEnumerable"; "toString"; "valueOf"; "__proto__";
   "toLocaleString"].

(** ** Objects used as maps

    Own properties in JavaScript order: array-index keys ascending, then
    the other keys in insertion order.  A read [o[k]] that finds no own
    property goes on to what every object inherits.  An assignment
    under the key [__proto__] is not modelled: the contract maps are
    assigned only under a key whose read was falsy or under a common
    symbol, and the ids of accounts are numbers (types.ts). *)
Module Obj.

Definition t : Type := list (string * JsValue).

Definition get (k : string) (o : t) : JsValue := Js.assoc k o.

Fixpoint has (k : string) (o : t) : bool :=
  match o with
  | [] => false
  | (k', _) :: o' => (k' =? k)%string || has k o'
  end.

Fixpoint replace (k : string) (v : JsValue) (o : t) : t :=
  match o with
  | [] => []
  | (k', v') :: o' =>
      if (k' =? k)%string then (k, v) :: o' else (k', v') :: replace k v o'
  end.

(** A new array-index key goes before the first key that is not an
    array index or is a larger one. *)
Fixpoint insert_index (i : N) (k : string) (v : JsValue) (o : t) : t :=
  match o with
  | [] => [(k, v)]
  | (k', v') :: o' =>
      match Js.array_index k' with
      | Some j => if (j <? i)%N then (k', v') :: insert_index i k v o'
                  else (k, v) :: o
      | None => (k, v) :: o
      end
  end.

(** [o[k] = v] *)
Definition set (k : string) (v : JsValue) (o : t) : t :=
  if has k o then replace k v o
  else match Js.array_index k with
       | Some i => insert_index i k v o
       | None => (o ++ [(k, v)])%list
       end.

(** [delete o[k]] *)
Fixpoint delete (k : string) (o : t) : t :=
  match o with
  | [] => []
  | (k', v') :: o' =>
      if (k' =? k)%string then o' else (k', v') :: delete k o'
  end.

(** [Object.keys(o)] and [Object.values(o)] *)
Definition keys (o : t) : list string := map fst o.
Definition values (o : t) : list JsValue := map snd o.

(** A function that every object inherits.  The code reads from a
    cached entry only fields by name, and of these a function has
    [name] and [length]; it is represented by these two. *)
Definition method (name : string) (arity : Z) : JsValue :=
  JObj [("length", JNum arity); ("name", JStr name)].

(** What an object inherits under a name: [Object] as its constructor,
    the methods of [Object.prototype], the prototype itself under
    [__proto__] (none of the fields the code reads is set on it), and
    nothing under any other name. *)
Definition inherited (k : string) : JsValue :=
  if (k =? "constructor")%string then method "Object" 1
  else if (k =? "__proto__")%string then JObj []
  else if (k =? "__defineGetter__")%string
          || (k =? "__defineSetter__")%string then method k 2
  else if (k =? "hasOwnProperty")%string
          || (k =? "__lookupGetter__")%string
          || (k =? "__lookupSetter__")%string
          || (k =? "isPrototypeOf")%string
          || (k =? "propertyIsEnumerable")%string then method k 1
  else if (k =? "toString")%string || (k =? "valueOf")%string
          || (k =? "toLocaleString")%string then method k 0
  else JUndefined.

(** [o[k]]: the own property when there is one, else what is
    inherited. *)
Definition read (k : string) (o : t) : JsValue :=
  if has k o then get k o else inherited k.

End Obj.

(** ** The world: module state, clock, remote platform *)

Inductive Method : Type := GET | POST | PUT | DELETE.

(** What [axios.create] fixes for an instance: the base URL, the timeout
    and, for the authenticated instance, the bearer token. *)
Record AxiosInstance : Type := {
  baseURL : string;
  timeout : Z;
  bearer : option JsValue
}.

Record HttpCall : Type := {
  via : AxiosInstance;
  method : Method;
  url : string;
  data : JsValue
}.

(** A reply carries the time it took and either a status with a parsed
    body or no response at all (network failure, timeout). *)
Inductive HttpOutcome : Type :=
| Response (status : Z) (body : JsValue)
| NoResponse.

Record Reply : Type := {
  elapsed : N;
  outcome : HttpOutcome
}.

(** [process.env] *)
Definition Env : Type := string -> option string.

(** The remote platform: the reply to the call sent after [n] others. *)
Definition Remote : Type := nat -> HttpCall -> Reply.

(** A gateway request as [topstepxRequest] receives it. *)
Record GatewayRequest : Type := {
  g_method : Method;
  g_path : string;
  g_data : JsValue
}.

Record World : Type := {
  authToken : JsValue;
  tokenExpiry : option Z;
  axiosInstance : option AxiosInstance;
  accountsCache : Obj.t;
  contractsCache : Obj.t;
  symbolToContractIdMap : Obj.t;
  clock : Z;
  sent : list HttpCall;
  requested : list GatewayRequest
}.

Definition set_authToken (v : JsValue) (w : World) : World :=
  {| authToken := v; tokenExpiry := tokenExpiry w;
     axiosInstance := axiosInstance w; accountsCache := accountsCache w;
     contractsCache := contractsCache w;
     symbolToContractIdMap := symbolToContractIdMap w;
     clock := clock w; sent := sent w; requested := requested w |}.

Definition set_tokenExpiry (e : option Z) (w : World) : World :=
  {| authToken := authToken w; tokenExpiry := e;
     axiosInstance := axiosInstance w; accountsCache := accountsCache w;
     contractsCache := contractsCache w;
     symbolToContractIdMap := symbolToContractIdMap w;
     clock := clock w; sent := sent w; requested := requested w |}.

Definition set_axiosInstance (i : option AxiosInstance) (w : World) : World :=
  {| authToken := authToken w; tokenExpiry := tokenExpiry w;
     axiosInstance := i; accountsCache := accountsCache w;
     contractsCache := contractsCache w;
     symbolToContractIdMap := symbolToContractIdMap w;
     clock := clock w; sent := sent w; requested := requested w |}.

Definition set_accountsCache (o : Obj.t) (w : World) : World :=
  {| authToken := authToken w; tokenExpiry := tokenExpiry w;
     axiosInstance := axiosInstance w; accountsCache := o;
     contractsCache := contractsCache w;
     symbolToContractIdMap := symbolToContractIdMap w;
     clock := clock w; sent := sent w; requested := requested w |}.

Definition set_contractsCache (o : Obj.t) (w : World) : World :=
  {| authToken := authToken w; tokenExpiry := tokenExpiry w;
     axiosInstance := axiosInstance w; accountsCache := accountsCache w;
     contractsCache := o;
     symbolToContractIdMap := symbolToContractIdMap w;
     clock := clock w; sent := sent w; requested := requested w |}.

Definition set_symbolToContractIdMap (o : Obj.t) (w : World) : World :=
  {| authToken := authToken w; tokenExpiry := tokenExpiry w;
     axiosInstance := axiosInstance w; accountsCache := accountsCache w;
     contractsCache := contractsCache w;
     symbolToContractIdMap := o;
     clock := clock w; sent := sent w; requested := requested w |}.

(** The state of a freshly loaded process at time [t0]. *)
Definition initial_world (t0 : Z) : World :=
  {| authToken := JNull; tokenExpiry := None; axiosInstance := None;
     accountsCache := []; contractsCache := []; symbolToContractIdMap := [];
     clock := t0; sent := []; requested := [] |}.

(** ** The monad of effects *)

Definition M (A : Type) : Type := World -> Result A * World.

Definition ret {A} (a : A) : M A := fun w => (Ok a, w).

Definition bind {A B} (m : M A) (k : A -> M B) : M B :=
  fun w =>
    match m w with
    | (Ok a, w') => k a w'
    | (Throw e, w') => (Throw e, w')
    end.

Definition throw {A} (e : JsError) : M A := fun w => (Throw e, w).

(** [try { body } catch (error) { handler }] *)
Definition try_catch {A} (body : M A) (handler : JsError -> M A) : M A :=
  fun w =>
    match body w with
    | (Ok a, w') => (Ok a, w')
    | (Throw e, w') => handler e w'
    end.

Definition lift {A} (r : Result A) : M A := fun w => (r, w).

Definition gets {A} (f : World -> A) : M A := fun w => (Ok (f w), w).

Definition modify (f : World -> World) : M unit := fun w => (Ok tt, f w).

Declare Scope js_scope.
Delimit Scope js_scope with js.
Notation "x <- m ;; k" := (bind m (fun x => k))
  (at level 61, m at next level, right associativity) : js_scope.
Notation "m ;; k" := (bind m (fun _ => k))
  (at level 61, right associativity) : js_scope.
Local Open Scope js_scope.

(** [for (const x of xs) { body }] and [xs.forEach(body)] *)
Fixpoint for_each {A} (xs : list A) (body : A -> M unit) : M unit :=
  match xs with
  | [] => ret tt
  | x :: xs' => body x ;; for_each xs' body
  end.

Definition result_of {A} (r : Result A * World) : Result A := fst r.
Definition world_of {A} (r : Result A * World) : World := snd r.

(** ** Tool requests and results *)

(** A template literal: fixed text with interpolated values; [Thrown e]
    is [`${error}`] and [Message e] is [error.message]. *)
Inductive TextPart : Type :=
| Lit (s : string)
| Val (v : JsValue)
| Thrown (e : JsError)
| Message (e : JsError).

Definition Text : Type := list TextPart.

(** The single text item of a result, before [JSON.stringify]. *)
Inductive Content : Type :=
| JsonText (payload : JsValue)
| JsonError (error : Text)
| PlainText (text : Text).

Record CallToolResult : Type := {
  content : Content;
  isError : bool
}.

(** [request.params] *)
Record ToolRequest : Type := {
  name : string;
  arguments : JsValue
}.

Definition createToolResult (payload : JsValue) : CallToolResult :=
  {| content := JsonText payload; isError := false |}.

Definition createErrorResult (error : Text) : CallToolResult :=
  {| content := JsonError error; isError := true |}.

(** ** src/auth.ts *)

Section Server.

Variable env : Env.
Variable remote : Remote.
(** [Date.prototype.toISOString] *)
Variable toISOString : Z -> string.

(** [process.env.NAME]: a string or [undefined] *)
Definition getenv (name : string) : JsValue :=
  match env name with
  | Some s => JStr s
  | None => JUndefined
  end.

(** The world once the reply to call [c] has arrived: the call is on
    record and the clock has moved by the time the reply took. *)
Definition arrive (c : HttpCall) (w : World) : World :=
  {| authToken := authToken w; tokenExpiry := tokenExpiry w;
     axiosInstance := axiosInstance w; accountsCache := accountsCache w;
     contractsCache := contractsCache w;
     symbolToContractIdMap := symbolToContractIdMap w;
     clock := clock w + Z.of_N (elapsed (remote (length (sent w)) c));
     sent := sent w ++ [c]; requested := requested w |}.

(** Sending a call through axios: a status outside 2xx and a transport
    failure reject the promise. *)
Definition axios_request (c : HttpCall) : M (Z * JsValue) :=
  fun w =>
    match outcome (remote (length (sent w)) c) with
    | Response s b =>
        if (200 <=? s) && (s <? 300) then (Ok (s, b), arrive c w)
        else (Throw (AxiosErr (Some (s, b))), arrive c w)
    | NoResponse => (Throw (AxiosErr None), arrive c w)
    end.

Definition host_topstepx : string := "https://api.topstepx.com/api".
Definition host_live : string := "https://gateway-api.s2f.projectx.com/api".
Definition host_demo : string :=
  "https://gateway-api-demo.s2f.projectx.com/api".

Definition getApiUrl : string :=
  let environment := Js.or (getenv "TOPSTEPX_ENVIRONMENT") (JStr "demo") in
  if Js.is_str environment "topstepx" || Js.is_str environment "demo"
  then host_topstepx
  else if Js.is_str environment "live" then host_live
  else host_demo.

Definition missing_credentials : JsValue :=
  JStr "TOPSTEPX_USERNAME/PROJECTX_USERNAME and TOPSTEPX_API_KEY/PROJECTX_API_KEY must be set in environment variables".

Definition username : JsValue :=
  Js.or (getenv "TOPSTEPX_USERNAME") (getenv "PROJECTX_USERNAME").
Definition apiKey : JsValue :=
  Js.or (getenv "TOPSTEPX_API_KEY") (getenv "PROJECTX_API_KEY").

Definition authClient : AxiosInstance :=
  {| baseURL := getApiUrl; timeout := 10000; bearer := None |}.

Definition authData : JsValue :=
  JObj [("userName", username); ("apiKey", apiKey)].

Definition loginCall : HttpCall :=
  {| via := authClient; method := POST; url := "/Auth/loginKey";
     data := authData |}.

Definition day_ms : Z := 24 * 60 * 60 * 1000.

(** The three assignments of a successful login. *)
Definition logged_in (apiUrl : string) (token : JsValue) (w : World) : World :=
  set_axiosInstance
    (Some {| baseURL := apiUrl; timeout := 30000; bearer := Some token |})
    (set_tokenExpiry (Some (clock w + day_ms)) (set_authToken token w)).

Definition authenticate : M unit :=
  if negb (Js.truthy username) || negb (Js.truthy apiKey)
  then throw (Err missing_credentials)
  else
    let apiUrl := getApiUrl in
    try_catch
      (response <- axios_request loginCall ;;
       let body := snd response in
       success <- lift (Js.get body "success") ;;
       token <- (if Js.truthy success then lift (Js.get body "token")
                 else ret success) ;;
       if Js.truthy token then modify (logged_in apiUrl token)
       else
         errorMessage <- lift (Js.get body "errorMessage") ;;
         throw (Err (Js.or errorMessage (JStr "Authentication failed"))))
      (fun error => throw error).

(** [tokenExpiry < new Date()] *)
Definition expired (w : World) : bool :=
  match tokenExpiry w with
  | Some e => e <? clock w
  | None => false
  end.

Definition needs_login (w : World) : bool :=
  negb (Js.truthy (authToken w))
  || match tokenExpiry w with None => true | Some _ => false end
  || expired w.

Definition ensureAuthenticated : M unit :=
  fun w => if needs_login w then authenticate w else ret tt w.

(** [error.response?.status === 401] *)
Definition status_is_401 (error : JsError) : bool :=
  match error with
  | AxiosErr (Some (s, _)) => s =? 401
  | _ => false
  end.

(** The handling of the first response (lines 124-136). *)
Definition normalize (body : JsValue) : Result JsValue :=
  match Js.get body "success" with
  | Throw e => Throw e
  | Ok success =>
      if Js.defined success then
        if Js.truthy success then
          match Js.get body "data" with
          | Throw e => Throw e
          | Ok d => Ok (if Js.defined d then d else body)
          end
        else
          match Js.get body "errorMessage" with
          | Throw e => Throw e
          | Ok errorMessage =>
              Throw (Err (Js.or errorMessage (JStr "Request failed")))
          end
      else Ok body
  end.

(** The handling of the retried response (lines 151-155). *)
Definition normalize_retry (body : JsValue) : Result JsValue :=
  match Js.get body "success" with
  | Throw e => Throw e
  | Ok success =>
      if Js.truthy success then Js.get body "data"
      else
        match Js.get body "errorMessage" with
        | Throw e => Throw e
        | Ok errorMessage =>
            Throw (Err (Js.or errorMessage (JStr "Request failed")))
        end
  end.

(** The world once a gateway request has been put on record. *)
Definition noted (m : Method) (path : string) (d : JsValue) (w : World)
  : World :=
  {| authToken := authToken w; tokenExpiry := tokenExpiry w;
     axiosInstance := axiosInstance w; accountsCache := accountsCache w;
     contractsCache := contractsCache w;
     symbolToContractIdMap := symbolToContractIdMap w;
     clock := clock w; sent := sent w;
     requested := requested w ++
       [{| g_method := m; g_path := path; g_data := d |}] |}.

Definition note_request (m : Method) (path : string) (d : JsValue)
  : M unit :=
  modify (noted m path d).

(** [axiosInstance.request({ method, url: path, data })]; the call on a
    [null] instance is a [TypeError]. *)
Definition send (m : Method) (path : string) (d : JsValue)
  : M (Z * JsValue) :=
  inst <- gets axiosInstance ;;
  match inst with
  | Some i => axios_request {| via := i; method := m; url := path;
                               data := d |}
  | None => throw TypeErr
  end.

(** The request is put on record first; the rest is the function as
    written. *)
Definition topstepxRequest (m : Method) (path : string) (d : JsValue)
  : M JsValue :=
  note_request m path d ;;
  ensureAuthenticated ;;
  inst <- gets axiosInstance ;;
  match inst with
  | None => throw (Err (JStr "Not authenticated"))
  | Some _ =>
      try_catch
        (response <- send m path d ;;
         lift (normalize (snd response)))
        (fun error =>
           if status_is_401 error then
             modify (set_authToken JNull) ;;
             authenticate ;;
             response <- send m path d ;;
             lift (normalize_retry (snd response))
           else throw error)
  end.

(** ** src/data.ts *)

Definition COMMON_SYMBOLS : list string :=
  ["MES"; "MNQ"; "MYM"; "M2K"; "MGC"; "MCL"; "MBT"; "MET"].

(** [Object.keys(accountsCache).forEach(key =>
      delete accountsCache[Number(key)])] *)
Definition clear_accounts (o : Obj.t) : Obj.t :=
  fold_left (fun acc k => Obj.delete (Js.number_key k) acc) (Obj.keys o) o.

(** [Object.keys(o).forEach(key => delete o[key])] *)
Definition clear_all (o : Obj.t) : Obj.t :=
  fold_left (fun acc k => Obj.delete k acc) (Obj.keys o) o.

(** [xs.forEach(body)]: only an array has [forEach]. *)
Definition forEach (xs : JsValue) (body : JsValue -> M unit) : M unit :=
  match xs with
  | JArr l => for_each l body
  | _ => throw TypeErr
  end.

(** [accountsCache[account.id] = account] *)
Definition store_account (account : JsValue) : M unit :=
  id <- lift (Js.get account "id") ;;
  modify (fun w =>
    set_accountsCache (Obj.set (Js.key id) account (accountsCache w)) w).

(** The bodies of the two searches. *)
Definition accountSearch : JsValue :=
  JObj [("onlyActiveAccounts", JBool true)].

Definition loadAccounts : M unit :=
  try_catch
    (response <- topstepxRequest POST "/Account/search" accountSearch ;;
     modify (fun w =>
       set_accountsCache (clear_accounts (accountsCache w)) w) ;;
     accounts <- (if Js.truthy response
                  then lift (Js.get response "accounts")
                  else ret response) ;;
     if Js.truthy accounts then forEach accounts store_account
     else ret tt)
    (fun _ => ret tt).

Definition contractSearch (searchText : JsValue) : JsValue :=
  JObj [("searchText", searchText); ("live", JBool false)].

(** [contracts && contracts.length > 0] *)
Definition nonempty (contracts : JsValue) : M bool :=
  if Js.truthy contracts then
    len <- lift (Js.get contracts "length") ;;
    ret (Js.positive len)
  else ret false.

(** The two writes that cache a contract under a key. *)
Definition store_contract (k : string) (contracts : JsValue) : M JsValue :=
  contract <- lift (Js.get contracts "0") ;;
  modify (fun w =>
    set_contractsCache (Obj.set k contract (contractsCache w)) w) ;;
  id <- lift (Js.get contract "id") ;;
  modify (fun w =>
    set_symbolToContractIdMap
      (Obj.set k id (symbolToContractIdMap w)) w) ;;
  ret contract.

(** One turn of the loop of [loadContracts]. *)
Definition loadContract (symbol : string) : M unit :=
  try_catch
    (contracts <- topstepxRequest POST "/Contract/search"
                    (contractSearch (JStr symbol)) ;;
     some <- nonempty contracts ;;
     if some then store_contract symbol contracts ;; ret tt
     else ret tt)
    (fun _ => ret tt).

Definition loadContracts : M unit :=
  try_catch
    (modify (fun w =>
       set_contractsCache (clear_all (contractsCache w)) w) ;;
     modify (fun w =>
       set_symbolToContractIdMap
         (clear_all (symbolToContractIdMap w)) w) ;;
     for_each COMMON_SYMBOLS loadContract)
    (fun _ => ret tt).

Definition initializeData : M unit :=
  try_catch
    (loadAccounts ;; loadContracts)
    (fun error => throw error).

(** The [try] block either returns a contract or falls through to
    [return null]. *)
Definition getContractBySymbol (symbol : JsValue) : M JsValue :=
  cached <- gets (fun w => Obj.read (Js.key symbol) (contractsCache w)) ;;
  if Js.truthy cached then ret cached
  else
    found <- try_catch
               (contracts <- topstepxRequest POST "/Contract/search"
                               (contractSearch symbol) ;;
                some <- nonempty contracts ;;
                if some then
                  contract <- store_contract (Js.key symbol) contracts ;;
                  ret (Some contract)
                else ret None)
               (fun _ => ret None) ;;
    match found with
    | Some contract => ret contract
    | None => ret JNull
    end.

Definition getPositions (accountId : JsValue) : M JsValue :=
  try_catch (ret (JArr [])) (fun _ => ret (JArr [])).

Definition getOrders (accountId onlyOpen : JsValue) : M JsValue :=
  try_catch (ret (JArr [])) (fun _ => ret (JArr [])).

Definition getDefaultAccountId : M JsValue :=
  accounts <- gets (fun w => Obj.values (accountsCache w)) ;;
  match accounts with
  | first :: _ => lift (Js.get first "id")
  | [] => ret JNull
  end.

(** ** src/tools.ts *)

Definition handleGetAccounts (request : ToolRequest) : M CallToolResult :=
  try_catch
    (accounts <- gets (fun w => Obj.values (accountsCache w)) ;;
     ret (createToolResult
            (JObj [("accounts", JArr accounts);
                   ("count", JNum (Z.of_nat (length accounts)))])))
    (fun error =>
       ret (createErrorResult [Lit "Failed to get accounts: "; Thrown error])).

Definition handleGetContractDetails (request : ToolRequest)
  : M CallToolResult :=
  try_catch
    (symbol <- lift (Js.get (arguments request) "symbol") ;;
     if negb (Js.truthy symbol)
     then ret (createErrorResult [Lit "Symbol is required"])
     else
       contract <- getContractBySymbol symbol ;;
       if negb (Js.truthy contract)
       then ret (createErrorResult [Lit "Contract not found: "; Val symbol])
       else ret (createToolResult contract))
    (fun error =>
       ret (createErrorResult
              [Lit "Failed to get contract details: "; Thrown error])).

Definition handleSearchContracts (request : ToolRequest)
  : M CallToolResult :=
  try_catch
    (searchText <- lift (Js.get (arguments request) "searchText") ;;
     limit0 <- lift (Js.get (arguments request) "limit") ;;
     let limit := Js.default limit0 (JNum 10) in
     if negb (Js.truthy searchText)
     then ret (createErrorResult [Lit "Search text is required"])
     else
       contracts <- topstepxRequest POST "/Contract/search"
                      (contractSearch searchText) ;;
       page <- lift (Js.slice0 contracts limit) ;;
       count <- lift (Js.get contracts "length") ;;
       ret (createToolResult
              (JObj [("contracts", page); ("count", count)])))
    (fun error =>
       ret (createErrorResult
              [Lit "Failed to search contracts: "; Thrown error])).

Definition handleListPositions (request : ToolRequest)
  : M CallToolResult :=
  try_catch
    (accountId <- lift (Js.get (arguments request) "accountId") ;;
     positions <- getPositions accountId ;;
     count <- lift (Js.get positions "length") ;;
     ret (createToolResult
            (JObj [("positions", positions); ("count", count)])))
    (fun error =>
       ret (createErrorResult
              [Lit "Failed to list positions: "; Thrown error])).

(** [accountId || getDefaultAccountId()] *)
Definition targetAccount (accountId : JsValue) : M JsValue :=
  if Js.truthy accountId then ret accountId else getDefaultAccountId.

(** The body of [handlePlaceOrder] after the destructuring. *)
Definition placeOrder
    (symbol side quantity orderType price stopPrice accountId
       timeInForce : JsValue) : M CallToolResult :=
  if negb (Js.truthy symbol) || negb (Js.truthy side)
     || negb (Js.truthy quantity)
  then ret (createErrorResult [Lit "Symbol, side, and quantity are required"])
  else
    contract <- getContractBySymbol symbol ;;
    if negb (Js.truthy contract)
    then ret (createErrorResult [Lit "Contract not found: "; Val symbol])
    else
      targetAccountId <- targetAccount accountId ;;
      if negb (Js.truthy targetAccountId)
      then ret (createErrorResult
             [Lit "No account ID provided and no default account available"])
      else
        contractId <- lift (Js.get contract "id") ;;
        let orderRequest :=
          [("accountId", targetAccountId); ("contractId", contractId);
           ("side", side); ("orderType", orderType);
           ("quantity", quantity); ("timeInForce", timeInForce)] in
        let limitLike :=
          Js.is_str orderType "Limit" || Js.is_str orderType "StopLimit" in
        let stopLike :=
          Js.is_str orderType "Stop" || Js.is_str orderType "StopLimit" in
        if limitLike && negb (Js.truthy price)
        then ret (createErrorResult [Lit "Price is required for Limit orders"])
        else
          let orderRequest1 :=
            if limitLike then Obj.set "price" price orderRequest
            else orderRequest in
          if stopLike && negb (Js.truthy stopPrice)
          then ret (createErrorResult
                      [Lit "Stop price is required for Stop orders"])
          else
            let orderRequest2 :=
              if stopLike then Obj.set "stopPrice" stopPrice orderRequest1
              else orderRequest1 in
            response <- topstepxRequest POST "/Order/place"
                          (JObj orderRequest2) ;;
            ret (createToolResult
                   (JObj [("success", JBool true); ("order", response)])).

Definition handlePlaceOrder (request : ToolRequest) : M CallToolResult :=
  try_catch
    (let args := arguments request in
     symbol <- lift (Js.get args "symbol") ;;
     side <- lift (Js.get args "side") ;;
     quantity <- lift (Js.get args "quantity") ;;
     orderType <- lift (Js.get args "orderType") ;;
     price <- lift (Js.get args "price") ;;
     stopPrice <- lift (Js.get args "stopPrice") ;;
     accountId <- lift (Js.get args "accountId") ;;
     timeInForce <- lift (Js.get args "timeInForce") ;;
     placeOrder symbol side quantity (Js.default orderType (JStr "Market"))
       price stopPrice accountId (Js.default timeInForce (JStr "Day")))
    (fun error =>
       ret (createErrorResult [Lit "Failed to place order: "; Thrown error])).

(** [positions.find(p => p.symbol === symbol)] on an array *)
Fixpoint find_symbol (symbol : JsValue) (positions : list JsValue)
  : Result JsValue :=
  match positions with
  | [] => Ok JUndefined
  | p :: rest =>
      match Js.get p "symbol" with
      | Throw e => Throw e
      | Ok s =>
          if Js.strict_eq s symbol then Ok p else find_symbol symbol rest
      end
  end.

Definition find_position (symbol positions : JsValue) : Result JsValue :=
  match positions with
  | JArr l => find_symbol symbol l
  | _ => Throw TypeErr
  end.

Definition handleClosePosition (request : ToolRequest)
  : M CallToolResult :=
  try_catch
    (let args := arguments request in
     symbol <- lift (Js.get args "symbol") ;;
     accountId <- lift (Js.get args "accountId") ;;
     quantity <- lift (Js.get args "quantity") ;;
     if negb (Js.truthy symbol)
     then ret (createErrorResult [Lit "Symbol is required"])
     else
       contract <- getContractBySymbol symbol ;;
       if negb (Js.truthy contract)
       then ret (createErrorResult [Lit "Contract not found: "; Val symbol])
       else
         positions <- getPositions accountId ;;
         position <- lift (find_position symbol positions) ;;
         if negb (Js.truthy position)
         then ret (createErrorResult
                     [Lit "No open position found for "; Val symbol])
         else
           positionQuantity <- lift (Js.get position "quantity") ;;
           let closeQuantity := Js.or quantity positionQuantity in
           positionId <- lift (Js.get position "id") ;;
           response <- topstepxRequest POST "/Position/close-partial"
                         (JObj [("positionId", positionId);
                                ("quantity", closeQuantity)]) ;;
           ret (createToolResult
                  (JObj [("success", JBool true);
                         ("closedPosition", response)])))
    (fun error =>
       ret (createErrorResult
              [Lit "Failed to close position: "; Thrown error])).

Definition handleModifyOrder (request : ToolRequest) : M CallToolResult :=
  try_catch
    (let args := arguments request in
     orderId <- lift (Js.get args "orderId") ;;
     quantity <- lift (Js.get args "quantity") ;;
     price <- lift (Js.get args "price") ;;
     stopPrice <- lift (Js.get args "stopPrice") ;;
     if negb (Js.truthy orderId)
     then ret (createErrorResult [Lit "Order ID is required"])
     else
       let r0 := [("orderId", orderId)] in
       let r1 := if Js.defined quantity
                 then Obj.set "quantity" quantity r0 else r0 in
       let r2 := if Js.defined price then Obj.set "price" price r1 else r1 in
       let r3 := if Js.defined stopPrice
                 then Obj.set "stopPrice" stopPrice r2 else r2 in
       response <- topstepxRequest POST "/Order/modify" (JObj r3) ;;
       ret (createToolResult
              (JObj [("success", JBool true); ("order", response)])))
    (fun error =>
       ret (createErrorResult
              [Lit "Failed to modify order: "; Thrown error])).

Definition handleCancelOrder (request : ToolRequest) : M CallToolResult :=
  try_catch
    (orderId <- lift (Js.get (arguments request) "orderId") ;;
     if negb (Js.truthy orderId)
     then ret (createErrorResult [Lit "Order ID is required"])
     else
       response <- topstepxRequest POST "/Order/cancel"
                     (JObj [("orderId", orderId)]) ;;
       ret (createToolResult
              (JObj [("success", JBool true); ("cancelled", response)])))
    (fun error =>
       ret (createErrorResult
              [Lit "Failed to cancel order: "; Thrown error])).

Definition handleListOrders (request : ToolRequest) : M CallToolResult :=
  try_catch
    (let args := arguments request in
     accountId <- lift (Js.get args "accountId") ;;
     onlyOpen <- lift (Js.get args "onlyOpen") ;;
     orders <- getOrders accountId (Js.default onlyOpen (JBool true)) ;;
     count <- lift (Js.get orders "length") ;;
     ret (createToolResult (JObj [("orders", orders); ("count", count)])))
    (fun error =>
       ret (createErrorResult [Lit "Failed to list orders: "; Thrown error])).

(** [positions.reduce((sum, pos) => sum + (pos.field || 0), 0)]; the
    profit-and-loss fields of a [Position] are numbers (types.ts). *)
Fixpoint reduce_sum (field : string) (positions : list JsValue) (sum : Z)
  : Result Z :=
  match positions with
  | [] => Ok sum
  | pos :: rest =>
      match Js.get pos field with
      | Throw e => Throw e
      | Ok f =>
          reduce_sum field rest
            (sum + match Js.or f (JNum 0) with JNum n => n | _ => 0 end)
      end
  end.

Definition total (field : string) (positions : JsValue) : Result Z :=
  match positions with
  | JArr l => reduce_sum field l 0
  | _ => Throw TypeErr
  end.

Definition handleGetAccountSummary (request : ToolRequest)
  : M CallToolResult :=
  try_catch
    (accountId <- lift (Js.get (arguments request) "accountId") ;;
     targetAccountId <- targetAccount accountId ;;
     if negb (Js.truthy targetAccountId)
     then ret (createErrorResult
            [Lit "No account ID provided and no default account available"])
     else
       account <- gets (fun w =>
                    Obj.read (Js.key targetAccountId) (accountsCache w)) ;;
       if negb (Js.truthy account)
       then ret (createErrorResult
                   [Lit "Account not found: "; Val targetAccountId])
       else
         positions <- getPositions targetAccountId ;;
         openOrders <- getOrders targetAccountId (JBool true) ;;
         totalUnrealizedPnl <- lift (total "unrealizedPnl" positions) ;;
         totalRealizedPnl <- lift (total "realizedPnl" positions) ;;
         positionCount <- lift (Js.get positions "length") ;;
         orderCount <- lift (Js.get openOrders "length") ;;
         balance <- lift (Js.get account "balance") ;;
         canTrade <- lift (Js.get account "canTrade") ;;
         ret (createToolResult
                (JObj [("account", account);
                       ("positions",
                        JObj [("count", positionCount);
                              ("totalUnrealizedPnl", JNum totalUnrealizedPnl);
                              ("totalRealizedPnl", JNum totalRealizedPnl)]);
                       ("openOrders", orderCount);
                       ("summary",
                        JObj [("balance", balance);
                              ("canTrade", canTrade);
                              ("totalPnl",
                               JNum (totalUnrealizedPnl
                                     + totalRealizedPnl))])])))
    (fun error =>
       ret (createErrorResult
              [Lit "Failed to get account summary: "; Thrown error])).

Definition retrieveBars (contractId startTime endTime barType : JsValue)
  : JsValue :=
  JObj [("contractId", contractId); ("startTime", startTime);
        ("endTime", endTime); ("barType", barType)].

Definition handleGetMarketData (request : ToolRequest)
  : M CallToolResult :=
  try_catch
    (symbol <- lift (Js.get (arguments request) "symbol") ;;
     if negb (Js.truthy symbol)
     then ret (createErrorResult [Lit "Symbol is required"])
     else
       contract <- getContractBySymbol symbol ;;
       if negb (Js.truthy contract)
       then ret (createErrorResult [Lit "Contract not found: "; Val symbol])
       else
         endTime <- gets clock ;;
         let startTime := endTime - 60 * 1000 in
         contractId <- lift (Js.get contract "id") ;;
         bars <- topstepxRequest POST "/MarketData/retrieve-bars"
                   (retrieveBars contractId
                      (JStr (toISOString startTime))
                      (JStr (toISOString endTime)) (JStr "1min")) ;;
         some <- nonempty bars ;;
         if some then
           len <- lift (Js.get bars "length") ;;
           latestBar <- lift (Js.get bars (Js.pred_key len)) ;;
           contractName <- lift (Js.get contract "name") ;;
           now <- gets clock ;;
           ret (createToolResult
                  (JObj [("symbol", symbol);
                         ("contract",
                          JObj [("id", contractId);
                                ("name", contractName)]);
                         ("latestBar", latestBar);
                         ("timestamp", JStr (toISOString now))]))
         else ret (createErrorResult
                     [Lit "No market data available for "; Val symbol]))
    (fun error =>
       ret (createErrorResult
              [Lit "Failed to get market data: "; Thrown error])).

Definition handleGetBars (request : ToolRequest) : M CallToolResult :=
  try_catch
    (let args := arguments request in
     symbol <- lift (Js.get args "symbol") ;;
     startTime <- lift (Js.get args "startTime") ;;
     endTime <- lift (Js.get args "endTime") ;;
     barType0 <- lift (Js.get args "barType") ;;
     let barType := Js.default barType0 (JStr "1min") in
     if negb (Js.truthy symbol) || negb (Js.truthy startTime)
        || negb (Js.truthy endTime)
     then ret (createErrorResult
                 [Lit "Symbol, startTime, and endTime are required"])
     else
       contract <- getContractBySymbol symbol ;;
       if negb (Js.truthy contract)
       then ret (createErrorResult [Lit "Contract not found: "; Val symbol])
       else
         contractId <- lift (Js.get contract "id") ;;
         bars <- topstepxRequest POST "/MarketData/retrieve-bars"
                   (retrieveBars contractId startTime endTime barType) ;;
         count <- lift (Js.get bars "length") ;;
         ret (createToolResult
                (JObj [("symbol", symbol); ("barType", barType);
                       ("bars", bars); ("count", count)])))
    (fun error =>
       ret (createErrorResult [Lit "Failed to get bars: "; Thrown error])).

Definition handleGetCommonContracts (request : ToolRequest)
  : M CallToolResult :=
  try_catch
    (cache <- gets contractsCache ;;
     ret (createToolResult
            (JObj [("contracts", JArr (Obj.values cache));
                   ("symbols", JArr (map JStr (Obj.keys cache)))])))
    (fun error =>
       ret (createErrorResult
              [Lit "Failed to get common contracts: "; Thrown error])).

(** ** src/index.ts: the [CallToolRequestSchema] handler *)

Definition callTool (request : ToolRequest) : M CallToolResult :=
  let tool := name request in
  let named (s : string) := (tool =? s)%string in
  try_catch
    (if named "get_accounts" then handleGetAccounts request
     else if named "get_contract_details" then handleGetContractDetails request
     else if named "search_contracts" then handleSearchContracts request
     else if named "get_common_contracts" then handleGetCommonContracts request
     else if named "list_positions" then handleListPositions request
     else if named "place_order" then handlePlaceOrder request
     else if named "close_position" then handleClosePosition request
     else if named "modify_order" then handleModifyOrder request
     else if named "cancel_order" then handleCancelOrder request
     else if named "list_orders" then handleListOrders request
     else if named "get_account_summary" then handleGetAccountSummary request
     else if named "get_market_data" then handleGetMarketData request
     else if named "get_bars" then handleGetBars request
     else ret {| content := PlainText [Lit "Unknown tool: "; Lit tool];
                 isError := true |})
    (fun error =>
       ret {| content := PlainText [Lit "Error: "; Message error];
              isError := true |}).


(** ** src/index.ts: start-up and the periodic refresh *)

(** [initialize]: log in, load the data, and let any failure through.
    The timer it sets up runs [refreshTick] every five minutes. *)
Definition initialize : M unit :=
  try_catch
    (authenticate ;; initializeData)
    (fun error => throw error).

Definition refreshTick : M unit :=
  try_catch initializeData (fun _ => ret tt).

(** The names under which the tools are listed. *)
Definition tool_names : list string :=
  ["get_accounts"; "get_contract_details"; "search_contracts";
   "get_common_contracts"; "list_positions"; "place_order";
   "close_position"; "modify_order"; "cancel_order"; "list_orders";
   "get_account_summary"; "get_market_data"; "get_bars"].

End Server.

(** ** src/index.ts: the [ReadResourceRequestSchema] handler *)


(** What a resource read returns: the value that is printed as JSON and
    the URI it is returned under. *)
Record ResourceContents : Type := {
  res_payload : JsValue;
  res_uri : string
}.

(** The text before the first slash, and the text after it if there is
    a slash. *)
Fixpoint before_slash (s : string) : string :=
  match s with
  | EmptyString => EmptyString
  | String c rest =>
      if Ascii.eqb c "/" then EmptyString else String c (before_slash rest)
  end.

Fixpoint after_slash (s : string) : option string :=
  match s with
  | EmptyString => None
  | String c rest => if Ascii.eqb c "/" then Some rest else after_slash rest
  end.

(** The characters that [.] does not match: line feed, carriage return,
    and the line and paragraph separators (here in UTF-8). *)
Fixpoint has_line_terminator (s : string) : bool :=
  match s with
  | EmptyString => false
  | String c rest =>
      Ascii.eqb c "010" || Ascii.eqb c "013"
      || (Ascii.eqb c "226"
          && (prefix (String "128" (String "168" EmptyString)) rest
              || prefix (String "128" (String "169" EmptyString)) rest))
      || has_line_terminator rest
  end.

(** The match of the URI against the handler's pattern: the scheme
    [topstepx://], a type of one or more characters other than a slash,
    and optionally a slash followed by an id of any characters but line
    terminators, up to the end.  The result is the two groups, the
    second absent when no slash follows the type. *)
Definition match_uri (uri : string) : option (string * option string) :=
  if prefix "topstepx://" uri then
    let rest := substring 11 (String.length uri - 11) uri in
    let resourceType := before_slash rest in
    if (resourceType =? "")%string then None
    else match after_slash rest with
         | None => Some (resourceType, None)
         | Some resourceId =>
             if has_line_terminator resourceId then None
             else Some (resourceType, Some resourceId)
         end
  else None.

Section Resources.

(** [Number(s)] for a text [s]. *)
Variable numberOf : string -> JsValue.

Definition readResource (uri : string) : M ResourceContents :=
  match match_uri uri with
  | None => throw (Err (JStr ("Invalid resource URI: " ++ uri)))
  | Some (resourceType, group) =>
      let resourceId := match group with Some s => s | None => "" end in
      let given := negb (resourceId =? "")%string in
      if (resourceType =? "account")%string then
        if given then
          account <- gets (fun w =>
                       Obj.read (Js.key (numberOf resourceId))
                         (accountsCache w)) ;;
          if negb (Js.truthy account)
          then throw (Err (JStr ("Account not found: " ++ resourceId)))
          else ret {| res_payload := account;
                      res_uri := "topstepx://account/" ++ resourceId |}
        else
          accounts <- gets (fun w => Obj.values (accountsCache w)) ;;
          ret {| res_payload := JArr accounts;
                 res_uri := "topstepx://account/" |}
      else if (resourceType =? "position")%string then
        positions <- getPositions
                       (if given then numberOf resourceId else JUndefined) ;;
        ret {| res_payload := positions;
               res_uri := if given then "topstepx://position/" ++ resourceId
                          else "topstepx://position/" |}
      else throw (Err (JStr ("Unknown resource type: " ++ resourceType)))
  end.

End Resources.

(** ** src/logger.ts: which levels are written *)

Definition LOG_LEVELS : Obj.t :=
  [("DEBUG", JNum 0); ("INFO", JNum 1); ("WARN", JNum 2); ("ERROR", JNum 3)].

(** [LOG_LEVELS[name]]: the number of a level, [undefined], or, under an
    inherited name, a function or the prototype; of those only that
    they are objects matters, so an empty object stands for them. *)
Definition level_named (name : string) : JsValue :=
  if Obj.has name LOG_LEVELS then Obj.get name LOG_LEVELS
  else if existsb (String.eqb name) inherited_names then JObj []
  else JUndefined.

Definition LOG_LEVEL (env : Env) : JsValue :=
  match env "LOG_LEVEL" with
  | Some v =>
      if Js.truthy (JStr v) then Js.or (level_named v) (JNum 1) else JNum 1
  | None => JNum 1
  end.

(** [LOG_LEVEL <= n] *)
Definition at_most (level : JsValue) (n : Z) : bool :=
  match Js.to_number level with
  | Some x => x <=? n
  | None => false
  end.

(** Whether [debug], [info], [warn] and [error] write their line. *)
Definition debug_writes (env : Env) : bool := at_most (LOG_LEVEL env) 0.
Definition info_writes (env : Env) : bool := at_most (LOG_LEVEL env) 1.
Definition warn_writes (env : Env) : bool := at_most (LOG_LEVEL env) 2.
Definition error_writes (env : Env) : bool := at_most (LOG_LEVEL env) 3.

(** * Notions used in the statements *)

Definition credentials_present (env : Env) : bool :=
  Js.truthy (username env) && Js.truthy (apiKey env).

(** In a running process the three session variables are set together by
    a login that found the credentials, and only the token is ever reset. *)
Definition session_inv (env : Env) (w : World) : Prop :=
  Js.truthy (authToken w) = true ->
  credentials_present env = true
  /\ tokenExpiry w <> None
  /\ axiosInstance w <> None.

Definition success_status (s : Z) : bool := (200 <=? s) && (s <? 300).

(** The token that a reply to the login call grants, if it grants one. *)
Definition granted (o : HttpOutcome) : option JsValue :=
  match o with
  | Response s b =>
      if success_status s then
        match Js.get b "success" with
        | Ok success =>
            if Js.truthy success then
              match Js.get b "token" with
              | Ok token => if Js.truthy token then Some token else None
              | Throw _ => None
              end
            else None
        | Throw _ => None
        end
      else None
  | NoResponse => None
  end.

(** The credential a login sends: the value of the first variable when
    it is set to a text that is not empty, else that of the second. *)
Definition first_set (env : Env) (a b : string) : JsValue :=
  match env a with
  | Some (String c rest) => JStr (String c rest)
  | _ => match env b with
         | Some text => JStr text
         | None => JUndefined
         end
  end.

(** The login call, written out: a POST to [/Auth/loginKey] at the base
    URL, with a timeout of ten seconds and without a bearer token,
    carrying the user name and the API key. *)
Definition login_request (env : Env) : HttpCall :=
  {| via := {| baseURL := getApiUrl env; timeout := 10000; bearer := None |};
     method := POST;
     url := "/Auth/loginKey";
     data := JObj [("userName",
                    first_set env "TOPSTEPX_USERNAME" "PROJECTX_USERNAME");
                   ("apiKey",
                    first_set env "TOPSTEPX_API_KEY" "PROJECTX_API_KEY")] |}.


(** The authenticated instance built around a token. *)
Definition session (env : Env) (token : JsValue) : AxiosInstance :=
  {| baseURL := getApiUrl env; timeout := 30000; bearer := Some token |}.

(** One attempt of a gateway request through an instance. *)
Definition attempt (i : AxiosInstance) (m : Method) (path : string)
    (d : JsValue) : HttpCall :=
  {| via := i; method := m; url := path; data := d |}.

Definition gateway_request (m : Method) (path : string) (d : JsValue)
  : GatewayRequest :=
  {| g_method := m; g_path := path; g_data := d |}.

(** The reply to the call that would be sent next from [w]. *)
Definition next_reply (remote : Remote) (c : HttpCall) (w : World)
  : HttpOutcome :=
  outcome (remote (length (sent w)) c).


(** The reply is a response with status 401. *)
Definition unauthorized (o : HttpOutcome) : bool :=
  match o with
  | Response s _ => s =? 401
  | NoResponse => false
  end.

(** A computation respects a relation when every run relates the world
    it starts from to the world it ends in. *)
Definition respects (R : World -> World -> Prop) {A : Type} (c : M A)
  : Prop :=
  forall w, R w (snd (c w)).

(** None of the three caches changes. *)
Definition same_caches (w w' : World) : Prop :=
  accountsCache w' = accountsCache w
  /\ contractsCache w' = contractsCache w
  /\ symbolToContractIdMap w' = symbolToContractIdMap w.

(** The account cache does not change. *)
Definition same_accounts (w w' : World) : Prop :=
  accountsCache w' = accountsCache w.

(** No gateway request is started. *)
Definition same_requests (w w' : World) : Prop :=
  requested w' = requested w.

(** The HTTP calls and gateway requests made on the way all satisfy
    the given predicates. *)
Definition traffic (okCall : HttpCall -> Prop)
    (okReq : GatewayRequest -> Prop) (w w' : World) : Prop :=
  (exists l, sent w' = sent w ++ l /\ Forall okCall l)
  /\ (exists l, requested w' = requested w ++ l /\ Forall okReq l).

Definition keeps_session (env : Env) (w w' : World) : Prop :=
  session_inv env w -> session_inv env w'.

(** The first entry of what a contract search returned, when the search
    succeeded and returned something non-empty. *)
Definition first_match (found : Result JsValue) : option JsValue :=
  match found with
  | Ok contracts =>
      if Js.truthy contracts then
        match Js.get contracts "length", Js.get contracts "0" with
        | Ok len, Ok c => if Js.positive len then Some c else None
        | _, _ => None
        end
      else None
  | Throw _ => None
  end.

Definition searchRequest (symbol : JsValue) : GatewayRequest :=
  gateway_request POST "/Contract/search" (contractSearch symbol).

(** The order types that need a price, and those that need a stop price. *)
Definition limit_like (orderType : JsValue) : bool :=
  Js.is_str orderType "Limit" || Js.is_str orderType "StopLimit".

Definition stop_like (orderType : JsValue) : bool :=
  Js.is_str orderType "Stop" || Js.is_str orderType "StopLimit".

(** A [place_order] invocation with the given argument values; a field
    holding [undefined] is a field that was not given. *)
Definition place_order_request
    (symbol side quantity orderType price stopPrice accountId
       timeInForce : JsValue) : ToolRequest :=
  {| name := "place_order";
     arguments :=
       JObj [("symbol", symbol); ("side", side); ("quantity", quantity);
             ("orderType", orderType); ("price", price);
             ("stopPrice", stopPrice); ("accountId", accountId);
             ("timeInForce", timeInForce)] |}.


(** Everything [place_order] checks before it looks at the price is in
    place: the three required values are given, the symbol is cached,
    and an account id is given or a default account exists. *)
Definition ready_to_order (symbol side quantity accountId : JsValue)
    (w : World) : Prop :=
  Js.truthy symbol = true
  /\ Js.truthy side = true
  /\ Js.truthy quantity = true
  /\ Js.truthy (Obj.get (Js.key symbol) (contractsCache w)) = true
  /\ exists t, fst (targetAccount accountId w) = Ok t /\ Js.truthy t = true.

(** The outcome is a result flagged as an error. *)
Definition error_result (r : Result CallToolResult * World) : Prop :=
  exists res, fst r = Ok res /\ isError res = true.


(** No HTTP call and no gateway request for the given path. *)
Definition never_calls (path : string) (w w' : World) : Prop :=
  traffic (fun c => url c <> path) (fun g => g_path g <> path) w w'.

(** The keys of the account cache are the texts of numbers, as the ids
    of accounts are numbers (types.ts). *)
Definition numeric_keys (o : Obj.t) : Prop :=
  Forall (fun k => Js.number_key k = k) (Obj.keys o).

(** The entries of an array up to its first [undefined] or [null]. *)
Fixpoint usable (l : list JsValue) : list JsValue :=
  match l with
  | [] => []
  | JUndefined :: _ | JNull :: _ => []
  | a :: rest => a :: usable rest
  end.

(** The accounts that the answer to an account search carries. *)
Definition returned_accounts (response : JsValue) : list JsValue :=
  if Js.truthy response then
    match Js.get response "accounts" with
    | Ok (JArr l) => usable l
    | _ => []
    end
  else [].

(** The key under which an account is filed: its id. *)
Definition account_key (account : JsValue) : string :=
  match Js.get account "id" with
  | Ok id => Js.key id
  | Throw _ => ""
  end.

(** The cache after the accounts have been filed one by one. *)
Definition filed (accounts : list JsValue) (o : Obj.t) : Obj.t :=
  fold_left (fun acc a => Obj.set (account_key a) a acc) accounts o.

(** The id of the account is a number. *)
Definition numeric_id (account : JsValue) : Prop :=
  exists n, Js.get account "id" = Ok (JNum n).

(** The accounts that account searches hand back carry numbers as ids. *)
Definition typed_accounts (env : Env) (remote : Remote) : Prop :=
  forall w response,
    fst (topstepxRequest env remote POST "/Account/search" accountSearch w)
    = Ok response ->
    Forall numeric_id (returned_accounts response).

(** The last of the accounts filed under a key; [undefined] when there
    is none. *)
Definition latest (k : string) (accounts : list JsValue) : JsValue :=
  fold_left (fun found a => if (account_key a =? k)%string then a else found)
    accounts JUndefined.

(** Time passing while the process is idle. *)
Definition elapse (dt : N) (w : World) : World :=
  {| authToken := authToken w; tokenExpiry := tokenExpiry w;
     axiosInstance := axiosInstance w; accountsCache := accountsCache w;
     contractsCache := contractsCache w;
     symbolToContractIdMap := symbolToContractIdMap w;
     clock := clock w + Z.of_N dt; sent := sent w;
     requested := requested w |}.

(** The worlds a process goes through: it starts, logs in, refreshes its
    data and serves tool invocations, one after the other. *)
Inductive reachable (env : Env) (remote : Remote) (toISOString : Z -> string)
  : World -> Prop :=
| reach_start (t0 : Z) :
    reachable env remote toISOString (initial_world t0)
| reach_wait (dt : N) (w : World) :
    reachable env remote toISOString w ->
    reachable env remote toISOString (elapse dt w)
| reach_authenticate (w : World) :
    reachable env remote toISOString w ->
    reachable env remote toISOString (snd (authenticate env remote w))
| reach_refresh (w : World) :
    reachable env remote toISOString w ->
    reachable env remote toISOString (snd (initializeData env remote w))
| reach_tool (request : ToolRequest) (w : World) :
    reachable env remote toISOString w ->
    reachable env remote toISOString
      (snd (callTool env remote toISOString request w)).

(** ** Notions used for the tools, the refresh and the resources *)

(** A field of a request body that is there only when its value is not
    [undefined]. *)
Definition given (k : string) (v : JsValue) : list (string * JsValue) :=
  if Js.defined v then [(k, v)] else [].

(** What an order tool makes of the outcome of its gateway request: the
    answer under [label] in a success result, or an error result that
    quotes the error; the world is the one the gateway left. *)
Definition wrapped (label failure : string) (g : Result JsValue * World)
  : Result CallToolResult * World :=
  (match fst g with
   | Ok response =>
       Ok (createToolResult (JObj [("success", JBool true);
                                   (label, response)]))
   | Throw e => Ok (createErrorResult [Lit failure; Thrown e])
   end, snd g).

(** The tools that answer from the caches. *)
Definition local_tools : list string :=
  ["get_accounts"; "get_common_contracts"; "list_positions"; "list_orders";
   "get_account_summary"].

(** A result built by [createToolResult] or [createErrorResult], as
    opposed to the plain texts of the dispatcher. *)
Definition json_result (res : CallToolResult) : Prop :=
  match content res with
  | JsonText _ | JsonError _ => True
  | PlainText _ => False
  end.

(** Every value a computation returns satisfies [P]. *)
Definition yields {A : Type} (P : A -> Prop) (c : M A) : Prop :=
  forall w, match fst (c w) with
            | Ok a => P a
            | Throw _ => True
            end.

(** The world is left as it was. *)
Definition unchanged (w w' : World) : Prop := w' = w.

(** The paths for which the tools and the refresh ask the gateway. *)
Definition gateway_paths : list string :=
  ["/Account/search"; "/Contract/search"; "/Order/place"; "/Order/modify";
   "/Order/cancel"; "/MarketData/retrieve-bars"].


(** Nothing has been sent and no token is held. *)
Definition silent (w : World) : Prop :=
  sent w = [] /\ Js.truthy (authToken w) = false.

(** The HTTP calls the server is meant to send: the login call as
    written out above (a POST without a bearer token), and a POST to
    one of the gateway paths through a session built around a truthy
    token, which is its bearer token. *)
Definition known_call (env : Env) (c : HttpCall) : Prop :=
  c = login_request env
  \/ exists token p d,
       Js.truthy token = true /\ In p gateway_paths
       /\ c = attempt (session env token) POST p d.

Definition known_request (g : GatewayRequest) : Prop :=
  g_method g = POST /\ In (g_path g) gateway_paths.

(** The stored instance is a session around a granted token, and all
    traffic so far is of the known kind. *)
Definition disciplined (env : Env) (w : World) : Prop :=
  (forall i, axiosInstance w = Some i ->
             exists token, Js.truthy token = true /\ i = session env token)
  /\ Forall (known_call env) (sent w)
  /\ Forall known_request (requested w).

(** A state property kept from one world to the next. *)
Definition kept (I : World -> Prop) (w w' : World) : Prop := I w -> I w'.

(** The gateway requests of a refresh: the account search, then one
    contract search for each common symbol. *)
Definition refresh_requests : list GatewayRequest :=
  gateway_request POST "/Account/search" accountSearch
  :: map (fun symbol => searchRequest (JStr symbol)) COMMON_SYMBOLS.




(** The platform cannot be reached: no call gets a response. *)
Definition unreachable (remote : Remote) : Prop :=
  forall n c, outcome (remote n c) = NoResponse.

(** * Concrete settings

    An environment with credentials, a platform that answers from a
    script, and a few worlds. *)

Module Scenario.

Definition env : Env :=
  fun name =>
    if (name =? "TOPSTEPX_USERNAME")%string then Some "trader"
    else if (name =? "TOPSTEPX_API_KEY")%string then Some "key-1"
    else None.

Definition no_env : Env := fun _ => None.

Definition silence : Reply := {| elapsed := 0; outcome := NoResponse |}.

Definition reply (s : Z) (b : JsValue) : Reply :=
  {| elapsed := 5; outcome := Response s b |}.

(** The platform answers the [n]-th call with the [n]-th reply of the
    script and does not answer once the script is over. *)
Definition scripted (script : list Reply) : Remote :=
  fun n _ => nth n script silence.

Definition loginOk (token : string) : JsValue :=
  JObj [("success", JBool true); ("token", JStr token)].


Definition iso (t : Z) : string := Js.string_of_Z t.

Definition fresh : World := initial_world 1000.

(** A world with a session that is still valid locally. *)
Definition signed_in : World :=
  logged_in (getApiUrl env) (JStr "t1") fresh.

Definition account : JsValue :=
  JObj [("id", JNum 42); ("name", JStr "SIM-42"); ("balance", JNum 50000);
        ("canTrade", JBool true)].

Definition accounts_envelope : JsValue :=
  JObj [("accounts", JArr [account]); ("success", JBool true);
        ("errorCode", JNum 0); ("errorMessage", JNull)].

Definition mes : JsValue :=
  JObj [("id", JNum 7); ("symbol", JStr "MES");
        ("name", JStr "Micro E-mini S&P 500")].

(** Signed in, with one account cached and no contract. *)
Definition with_account : World :=
  set_accountsCache [("42", account)] signed_in.

(** Signed in, with one account and the MES contract cached. *)
Definition trading : World :=
  set_symbolToContractIdMap [("MES", JNum 7)]
    (set_contractsCache [("MES", mes)] with_account).

Definition search_mes : JsValue := contractSearch (JStr "MES").

(** The platform answers the first call at once with the flat payload. *)
Definition answers_flat : Remote :=
  scripted [reply 200 (JArr [mes])].

(** The platform rejects the token, grants a new one at the login that
    follows, and answers the retried call with the given body. *)
Definition expires_then (body : JsValue) : Remote :=
  scripted [reply 401 JNull; reply 200 (loginOk "t2"); reply 200 body].


(** The platform grants a token at the first call. *)
Definition grants : Remote := scripted [reply 200 (loginOk "t1")].

(** The platform answers an account search with one account. *)
Definition lists_account : Remote :=
  scripted [reply 200 accounts_envelope].

(** Signed in, with an account cached that the platform no longer lists. *)
Definition with_old_account : World :=
  set_accountsCache [("17", JObj [("id", JNum 17)])] signed_in.

Definition limit_without_price (symbol : string) : ToolRequest :=
  place_order_request (JStr symbol) (JStr "Buy") (JNum 1) (JStr "Limit")
    JUndefined JUndefined JUndefined JUndefined.

Definition close_mes : ToolRequest :=
  {| name := "close_position";
     arguments := JObj [("symbol", JStr "MES")] |}.

Definition modify_nine : ToolRequest :=
  {| name := "modify_order";
     arguments := JObj [("orderId", JNum 9); ("price", JNum 0)] |}.

Definition search_micro : ToolRequest :=
  {| name := "search_contracts";
     arguments := JObj [("searchText", JStr "M"); ("limit", JNum 1)] |}.

Definition mnq : JsValue :=
  JObj [("id", JNum 8); ("symbol", JStr "MNQ");
        ("name", JStr "Micro E-mini Nasdaq-100")].

(** The platform answers the first call with two contracts. *)
Definition answers_two : Remote :=
  scripted [reply 200 (JArr [mes; mnq])].

Definition summary_request : ToolRequest :=
  {| name := "get_account_summary"; arguments := JObj [] |}.










(** The platform never answers. *)
Definition down : Remote := scripted [].

(** [Number] on the texts of integers. *)
Definition number (text : string) : JsValue :=
  match Js.parse_number text with
  | Some n => JNum n
  | None => JStr "NaN"
  end.

(** A process that logged in and was asked for a Limit order without a
    price on a symbol it had not cached. *)
Definition after_an_order (env : Env) (remote : Remote) : World :=
  snd (callTool env remote iso (limit_without_price "MES")
         (snd (authenticate env remote fresh))).

(** The platform grants a token and then answers the contract search. *)
Definition grants_then_finds : Remote :=
  scripted [reply 200 (loginOk "t1"); reply 200 (JArr [mes])].

End Scenario.

(** * The claims that do not hold as they are worded *)





(** C4 as worded: an absent flag selects the third host. *)
Definition absent_flag_selects_third_host (env : Env) : Prop :=
  env "TOPSTEPX_ENVIRONMENT" = None -> getApiUrl env = host_demo.

(** C4 as amended: an absent or empty flag counts as "demo". *)
Definition base_url_selection (flag : option string) : string :=
  match flag with
  | None => host_topstepx
  | Some v =>
      if (v =? "")%string || (v =? "demo")%string || (v =? "topstepx")%string
      then host_topstepx
      else if (v =? "live")%string then host_live
      else host_demo
  end.

(** * Properties *)

(** Unfold the monad's operations and reduce what has become concrete. *)
Ltac run :=
  unfold bind, ret, throw, try_catch, lift, gets, modify;
  cbn [negb andb orb fst snd]; cbv beta iota zeta.

Ltac reduce := cbn [negb andb orb fst snd]; cbv beta iota zeta.

(** Expose the first step of a sequence. *)
Ltac step := unfold bind at 1; cbv beta iota zeta.

(** Reading a property throws only on [undefined] and [null]. *)
Lemma get_total (v : JsValue) (k : string) :
  v <> JUndefined -> v <> JNull -> exists x, Js.get v k = Ok x.
Proof.
  intros Hu Hn. destruct v; try congruence; simpl; eauto.
  - destruct (k =? "length")%string; eauto.
    destruct (Js.array_index k); eauto.
  - destruct (k =? "length")%string; eauto.
    destruct (Js.array_index k); eauto.
Qed.

Lemma get_truthy (v : JsValue) (k : string) :
  Js.truthy v = true -> exists x, Js.get v k = Ok x.
Proof.
  intros H. apply get_total; intros ->; discriminate.
Qed.

Lemma get_ok_all (v : JsValue) (k k' : string) (x : JsValue) :
  Js.get v k = Ok x -> exists y, Js.get v k' = Ok y.
Proof.
  intros H. apply get_total; intros ->; discriminate.
Qed.

(** A [try] whose handler only returns never throws. *)
Lemma try_catch_returns {A : Type} (body : M A) (h : JsError -> A)
    (w : World) :
  exists a w', try_catch body (fun e => ret (h e)) w = (Ok a, w').
Proof.
  unfold try_catch, ret. destruct (body w) as [[a|e] w'];
    eexists; eexists; reflexivity.
Qed.

Section Session.

Variable env : Env.
Variable remote : Remote.

Lemma authenticate_missing (w : World) :
  credentials_present env = false ->
  authenticate env remote w = (Throw (Err missing_credentials), w).
Proof.
  unfold credentials_present, authenticate. intros H.
  rewrite <- negb_andb, H. reflexivity.
Qed.

Lemma authenticate_granted (w : World) (token : JsValue) :
  credentials_present env = true ->
  granted (next_reply remote (loginCall env) w) = Some token ->
  authenticate env remote w
  = (Ok tt, logged_in (getApiUrl env) token (arrive remote (loginCall env) w)).
Proof.
  unfold credentials_present, authenticate, next_reply. intros H G.
  rewrite <- negb_andb, H.
  unfold try_catch, bind, axios_request, lift, ret, throw, modify. cbn.
  destruct (outcome (remote (length (sent w)) (loginCall env))) as [s b|];
    cbn in G |- *; [|discriminate].
  unfold success_status in G.
  destruct ((200 <=? s) && (s <? 300)); [|discriminate].
  cbn. destruct (Js.get b "success") as [success|]; [|discriminate].
  destruct (Js.truthy success); [|discriminate].
  destruct (Js.get b "token") as [t|]; [|discriminate].
  destruct (Js.truthy t) eqn:Ht; [|discriminate].
  injection G as ->. reflexivity.
Qed.

Lemma authenticate_refused (w : World) :
  credentials_present env = true ->
  granted (next_reply remote (loginCall env) w) = None ->
  exists e, authenticate env remote w
            = (Throw e, arrive remote (loginCall env) w).
Proof.
  unfold credentials_present, authenticate, next_reply. intros H G.
  rewrite <- negb_andb, H.
  unfold try_catch, bind, axios_request, lift, ret, throw, modify. cbn.
  destruct (outcome (remote (length (sent w)) (loginCall env))) as [s b|];
    cbn in G |- *; [|eexists; reflexivity].
  unfold success_status in G.
  destruct ((200 <=? s) && (s <? 300)); [|eexists; reflexivity].
  cbn. destruct (Js.get b "success") as [success|]; [|eexists; reflexivity].
  destruct (Js.truthy success) eqn:Hs.
  - destruct (Js.get b "token") as [t|] eqn:Hg; [|eexists; reflexivity].
    destruct (Js.truthy t) eqn:Ht; [discriminate|].
    destruct (get_ok_all _ _ "errorMessage" _ Hg) as [m ->].
    eexists; reflexivity.
  - rewrite Hs.
    destruct (Js.get b "errorMessage"); eexists; reflexivity.
Qed.

Lemma loginCall_written_out : loginCall env = login_request env.
Proof.
  unfold loginCall, login_request, authClient, authData, username, apiKey,
    first_set, Js.or, getenv.
  destruct (env "TOPSTEPX_USERNAME") as [[|c1 u]|];
    destruct (env "TOPSTEPX_API_KEY") as [[|c2 k]|]; reflexivity.
Qed.



(** *** The gateway, case by case *)

Lemma topstepxRequest_unfold (m : Method) (p : string) (d : JsValue)
    (w : World) :
  topstepxRequest env remote m p d w
  = match ensureAuthenticated env remote (noted m p d w) with
    | (Ok _, w0) =>
        match axiosInstance w0 with
        | None => (Throw (Err (JStr "Not authenticated")), w0)
        | Some _ =>
            try_catch
              (response <- send remote m p d ;;
               lift (normalize (snd response)))
              (fun error =>
                 if status_is_401 error then
                   modify (set_authToken JNull) ;;
                   authenticate env remote ;;
                   response <- send remote m p d ;;
                   lift (normalize_retry (snd response))
                 else throw error) w0
        end
    | (Throw e, w0) => (Throw e, w0)
    end.
Proof.
  unfold topstepxRequest, note_request, bind at 1 2 3, modify, gets.
  destruct (ensureAuthenticated env remote (noted m p d w)) as [[u|e] w0];
    [|reflexivity].
  destruct (axiosInstance w0); reflexivity.
Qed.

Lemma send_with (i : AxiosInstance) (m : Method) (p : string) (d : JsValue)
    (w : World) :
  axiosInstance w = Some i ->
  send remote m p d w = axios_request remote (attempt i m p d) w.
Proof.
  intros H. unfold send, bind, gets. rewrite H. reflexivity.
Qed.


Lemma axios_request_401 (c : HttpCall) (w : World) :
  unauthorized (next_reply remote c w) = true ->
  exists b, axios_request remote c w
            = (Throw (AxiosErr (Some (401, b))), arrive remote c w).
Proof.
  unfold unauthorized, next_reply, axios_request.
  destruct (outcome (remote (length (sent w)) c)) as [s b|]; [|discriminate].
  intros H. apply Z.eqb_eq in H. subst s. exists b. reflexivity.
Qed.


Section Request.

Variables (m : Method) (p : string) (d : JsValue).
Variables (w w0 : World) (i : AxiosInstance).

Hypothesis prepared :
  ensureAuthenticated env remote (noted m p d w) = (Ok tt, w0).
Hypothesis instance : axiosInstance w0 = Some i.

Local Abbreviation first := (attempt i m p d).
Local Abbreviation w1 := (set_authToken JNull (arrive remote first w0)).


Lemma gateway_retry_start :
  unauthorized (next_reply remote first w0) = true ->
  topstepxRequest env remote m p d w
  = (authenticate env remote ;;
     response <- send remote m p d ;;
     lift (normalize_retry (snd response))) w1.
Proof.
  intros Hu. rewrite topstepxRequest_unfold, prepared, instance.
  unfold try_catch, bind at 1. rewrite (send_with i) by assumption.
  fold first.
  destruct (axios_request_401 first w0 Hu) as [b ->].
  reflexivity.
Qed.

Lemma gateway_retry_missing :
  unauthorized (next_reply remote first w0) = true ->
  credentials_present env = false ->
  topstepxRequest env remote m p d w = (Throw (Err missing_credentials), w1).
Proof.
  intros Hu Hc. rewrite gateway_retry_start by assumption.
  unfold bind at 1. rewrite authenticate_missing by assumption. reflexivity.
Qed.

Lemma gateway_retry_refused :
  unauthorized (next_reply remote first w0) = true ->
  credentials_present env = true ->
  granted (next_reply remote (loginCall env) w1) = None ->
  exists e, topstepxRequest env remote m p d w
            = (Throw e, arrive remote (loginCall env) w1).
Proof.
  intros Hu Hc G. rewrite gateway_retry_start by assumption.
  destruct (authenticate_refused w1 Hc G) as [e He].
  exists e. unfold bind at 1. rewrite He. reflexivity.
Qed.



End Request.





End Session.




(** ** Frame reasoning

    A relation between the world before and the world after that is
    reflexive, transitive and kept by the basic steps is kept by every
    function built from them. *)

Section Frame.

Variable R : World -> World -> Prop.
Hypothesis R_refl : forall w, R w w.
Hypothesis R_trans : forall a b c, R a b -> R b c -> R a c.

Lemma respects_ret {A : Type} (a : A) : respects R (ret a).
Proof. intros w. apply R_refl. Qed.

Lemma respects_throw {A : Type} (e : JsError) : respects R (@throw A e).
Proof. intros w. apply R_refl. Qed.

Lemma respects_lift {A : Type} (r : Result A) : respects R (lift r).
Proof. intros w. apply R_refl. Qed.

Lemma respects_gets {A : Type} (f : World -> A) : respects R (gets f).
Proof. intros w. apply R_refl. Qed.

Lemma respects_modify (f : World -> World) :
  (forall w, R w (f w)) -> respects R (modify f).
Proof. intros H w. apply H. Qed.

Lemma respects_bind {A B : Type} (c : M A) (k : A -> M B) :
  respects R c -> (forall a, respects R (k a)) -> respects R (bind c k).
Proof.
  intros Hc Hk w. unfold bind. specialize (Hc w).
  destruct (c w) as [[a|e] w']; simpl in *; [|assumption].
  eapply R_trans; [exact Hc | apply Hk].
Qed.

Lemma respects_try_catch {A : Type} (c : M A) (h : JsError -> M A) :
  respects R c -> (forall e, respects R (h e)) -> respects R (try_catch c h).
Proof.
  intros Hc Hh w. unfold try_catch. specialize (Hc w).
  destruct (c w) as [[a|e] w']; simpl in *; [assumption|].
  eapply R_trans; [exact Hc | apply Hh].
Qed.

Lemma respects_for_each {A : Type} (xs : list A) (body : A -> M unit) :
  (forall x, respects R (body x)) -> respects R (for_each xs body).
Proof.
  intros Hb. induction xs as [|x xs IH]; simpl.
  - apply respects_ret.
  - apply respects_bind; [apply Hb | intros _; exact IH].
Qed.

Variable env : Env.
Variable remote : Remote.
Variable okCall : HttpCall -> Prop.
Variable okReq : GatewayRequest -> Prop.

Hypothesis R_arrive : forall c w, okCall c -> R w (arrive remote c w).
Hypothesis R_noted :
  forall m p d w, okReq (gateway_request m p d) -> R w (noted m p d w).
Hypothesis R_clear : forall w, R w (set_authToken JNull w).
Hypothesis R_login :
  credentials_present env = true ->
  forall t w, R w (logged_in (getApiUrl env) t w).
Hypothesis ok_login : okCall (loginCall env).

Lemma respects_axios_request (c : HttpCall) :
  okCall c -> respects R (axios_request remote c).
Proof.
  intros H w. unfold axios_request.
  destruct (outcome (remote (length (sent w)) c)) as [s b|];
    [destruct ((200 <=? s) && (s <? 300))|]; simpl; apply R_arrive, H.
Qed.

Lemma respects_authenticate : respects R (authenticate env remote).
Proof.
  unfold authenticate.
  destruct (negb (Js.truthy (username env)) || negb (Js.truthy (apiKey env)))
    eqn:Hc.
  - apply respects_throw.
  - assert (Hp : credentials_present env = true).
    { unfold credentials_present. rewrite <- negb_andb in Hc.
      apply negb_false_iff, Hc. }
    apply respects_try_catch; [|intros e; apply respects_throw].
    apply respects_bind; [apply respects_axios_request, ok_login|].
    intros response. apply respects_bind; [apply respects_lift|].
    intros success. apply respects_bind.
    + destruct (Js.truthy success);
        [apply respects_lift | apply respects_ret].
    + intros token. destruct (Js.truthy token).
      * apply respects_modify. apply R_login, Hp.
      * apply respects_bind; [apply respects_lift|].
        intros x. apply respects_throw.
Qed.

Lemma respects_ensureAuthenticated :
  respects R (ensureAuthenticated env remote).
Proof.
  intros w. unfold ensureAuthenticated.
  destruct (needs_login w); [apply respects_authenticate | apply R_refl].
Qed.

Lemma respects_send (m : Method) (p : string) (d : JsValue) :
  (forall i, okCall (attempt i m p d)) -> respects R (send remote m p d).
Proof.
  intros H. unfold send. apply respects_bind; [apply respects_gets|].
  intros [i|]; [apply respects_axios_request, H | apply respects_throw].
Qed.

Lemma respects_attempts (m : Method) (p : string) (d : JsValue) :
  (forall i, okCall (attempt i m p d)) ->
  respects R
    (try_catch
       (response <- send remote m p d ;;
        lift (normalize (snd response)))
       (fun error =>
          if status_is_401 error then
            modify (set_authToken JNull) ;;
            authenticate env remote ;;
            response <- send remote m p d ;;
            lift (normalize_retry (snd response))
          else throw error)).
Proof.
  intros Hc. apply respects_try_catch.
  - apply respects_bind; [apply respects_send, Hc|].
    intros r. apply respects_lift.
  - intros e. destruct (status_is_401 e); [|apply respects_throw].
    apply respects_bind; [apply respects_modify, R_clear|].
    intros _. apply respects_bind; [apply respects_authenticate|].
    intros _. apply respects_bind; [apply respects_send, Hc|].
    intros r. apply respects_lift.
Qed.

Lemma respects_topstepxRequest (m : Method) (p : string) (d : JsValue) :
  (forall i, okCall (attempt i m p d)) ->
  okReq (gateway_request m p d) ->
  respects R (topstepxRequest env remote m p d).
Proof.
  intros Hc Hr. unfold topstepxRequest, note_request.
  apply respects_bind; [apply respects_modify; intros w; apply R_noted, Hr|].
  intros _. apply respects_bind; [apply respects_ensureAuthenticated|].
  intros _. apply respects_bind; [apply respects_gets|].
  intros [i|]; [|apply respects_throw].
  apply respects_attempts, Hc.
Qed.

(** *** The functions of data.ts *)

Hypothesis R_contracts : forall o w, R w (set_contractsCache o w).
Hypothesis R_ids : forall o w, R w (set_symbolToContractIdMap o w).
Hypothesis ok_search_call :
  forall i s, okCall (attempt i POST "/Contract/search" (contractSearch s)).
Hypothesis ok_search : forall s, okReq (searchRequest s).

Lemma respects_nonempty (contracts : JsValue) :
  respects R (nonempty contracts).
Proof.
  unfold nonempty. destruct (Js.truthy contracts); [|apply respects_ret].
  apply respects_bind; [apply respects_lift|].
  intros len. apply respects_ret.
Qed.

Lemma respects_store_contract (k : string) (contracts : JsValue) :
  respects R (store_contract k contracts).
Proof.
  unfold store_contract.
  apply respects_bind; [apply respects_lift|]. intros contract.
  apply respects_bind;
    [apply respects_modify; intros w; apply R_contracts|]. intros _.
  apply respects_bind; [apply respects_lift|]. intros id.
  apply respects_bind;
    [apply respects_modify; intros w; apply R_ids|]. intros _.
  apply respects_ret.
Qed.

Lemma respects_search (s : JsValue) :
  respects R
    (topstepxRequest env remote POST "/Contract/search" (contractSearch s)).
Proof.
  apply respects_topstepxRequest; [intros i; apply ok_search_call|].
  apply ok_search.
Qed.

Lemma respects_getContractBySymbol (symbol : JsValue) :
  respects R (getContractBySymbol env remote symbol).
Proof.
  unfold getContractBySymbol.
  apply respects_bind; [apply respects_gets|]. intros cached.
  destruct (Js.truthy cached); [apply respects_ret|].
  apply respects_bind.
  - apply respects_try_catch; [|intros e; apply respects_ret].
    apply respects_bind; [apply respects_search|]. intros contracts.
    apply respects_bind; [apply respects_nonempty|]. intros [|].
    + apply respects_bind; [apply respects_store_contract|].
      intros c. apply respects_ret.
    + apply respects_ret.
  - intros [c|]; apply respects_ret.
Qed.

Lemma respects_loadContracts : respects R (loadContracts env remote).
Proof.
  unfold loadContracts.
  apply respects_try_catch; [|intros e; apply respects_ret].
  apply respects_bind;
    [apply respects_modify; intros w; apply R_contracts|]. intros _.
  apply respects_bind;
    [apply respects_modify; intros w; apply R_ids|]. intros _.
  apply respects_for_each. intros symbol. unfold loadContract.
  apply respects_try_catch; [|intros e; apply respects_ret].
  apply respects_bind; [apply respects_search|]. intros contracts.
  apply respects_bind; [apply respects_nonempty|]. intros [|].
  - apply respects_bind; [apply respects_store_contract|].
    intros c. apply respects_ret.
  - apply respects_ret.
Qed.

Lemma respects_getDefaultAccountId : respects R getDefaultAccountId.
Proof.
  unfold getDefaultAccountId.
  apply respects_bind; [apply respects_gets|].
  intros [|first rest]; [apply respects_ret | apply respects_lift].
Qed.

Lemma respects_targetAccount (accountId : JsValue) :
  respects R (targetAccount accountId).
Proof.
  unfold targetAccount. destruct (Js.truthy accountId).
  - apply respects_ret.
  - apply respects_getDefaultAccountId.
Qed.

End Frame.

(** ** Objects used as maps *)

Lemma has_false_get (k : string) (o : Obj.t) :
  Obj.has k o = false -> Obj.get k o = JUndefined.
Proof.
  induction o as [|[k' v'] o IH]; simpl; [reflexivity|].
  intros H. apply orb_false_iff in H. destruct H as [H1 H2].
  rewrite H1. apply IH, H2.
Qed.

Lemma get_replace_same (k : string) (v : JsValue) (o : Obj.t) :
  Obj.has k o = true -> Obj.get k (Obj.replace k v o) = v.
Proof.
  induction o as [|[k' v'] o IH]; simpl; [discriminate|].
  destruct (k' =? k)%string eqn:E; simpl.
  - intros _. rewrite String.eqb_refl. reflexivity.
  - intros H. rewrite E. apply IH, H.
Qed.

Lemma get_replace_other (k k' : string) (v : JsValue) (o : Obj.t) :
  k' <> k -> Obj.get k' (Obj.replace k v o) = Obj.get k' o.
Proof.
  intros N. induction o as [|[k0 v0] o IH]; simpl; [reflexivity|].
  destruct (k0 =? k)%string eqn:E; simpl.
  - apply String.eqb_eq in E. subst k0.
    destruct (k =? k')%string eqn:E'; [|reflexivity].
    apply String.eqb_eq in E'. congruence.
  - destruct (k0 =? k')%string; [reflexivity | exact IH].
Qed.

Lemma get_insert_index_same (i : N) (k : string) (v : JsValue) (o : Obj.t) :
  Obj.has k o = false -> Obj.get k (Obj.insert_index i k v o) = v.
Proof.
  induction o as [|[k' v'] o IH]; simpl.
  - intros _. rewrite String.eqb_refl. reflexivity.
  - intros H. apply orb_false_iff in H. destruct H as [H1 H2].
    destruct (Js.array_index k') as [j|]; [destruct (j <? i)%N|]; simpl.
    + rewrite H1. apply IH, H2.
    + rewrite String.eqb_refl. reflexivity.
    + rewrite String.eqb_refl. reflexivity.
Qed.

Lemma get_insert_index_other (i : N) (k k' : string) (v : JsValue)
    (o : Obj.t) :
  k' <> k -> Obj.get k' (Obj.insert_index i k v o) = Obj.get k' o.
Proof.
  intros N. assert (E : (k =? k')%string = false).
  { apply String.eqb_neq. congruence. }
  induction o as [|[k0 v0] o IH]; simpl.
  - rewrite E. reflexivity.
  - destruct (Js.array_index k0) as [j|]; [destruct (j <? i)%N|]; simpl.
    + destruct (k0 =? k')%string; [reflexivity | exact IH].
    + rewrite E. reflexivity.
    + rewrite E. reflexivity.
Qed.

Lemma get_app_same (k : string) (v : JsValue) (o : Obj.t) :
  Obj.has k o = false -> Obj.get k (o ++ [(k, v)]) = v.
Proof.
  induction o as [|[k' v'] o IH]; simpl.
  - intros _. rewrite String.eqb_refl. reflexivity.
  - intros H. apply orb_false_iff in H. destruct H as [H1 H2].
    rewrite H1. apply IH, H2.
Qed.

Lemma get_app_other (k k' : string) (v : JsValue) (o : Obj.t) :
  k' <> k -> Obj.get k' (o ++ [(k, v)]) = Obj.get k' o.
Proof.
  intros N. induction o as [|[k0 v0] o IH]; simpl.
  - destruct (k =? k')%string eqn:E; [|reflexivity].
    apply String.eqb_eq in E. congruence.
  - destruct (k0 =? k')%string; [reflexivity | exact IH].
Qed.

(** Reading back what was written. *)
Lemma get_set_same (k : string) (v : JsValue) (o : Obj.t) :
  Obj.get k (Obj.set k v o) = v.
Proof.
  unfold Obj.set. destruct (Obj.has k o) eqn:H.
  - apply get_replace_same, H.
  - destruct (Js.array_index k).
    + apply get_insert_index_same, H.
    + apply get_app_same, H.
Qed.

(** A write leaves the other keys alone. *)
Lemma get_set_other (k k' : string) (v : JsValue) (o : Obj.t) :
  k' <> k -> Obj.get k' (Obj.set k v o) = Obj.get k' o.
Proof.
  intros N. unfold Obj.set. destruct (Obj.has k o).
  - apply get_replace_other, N.
  - destruct (Js.array_index k).
    + apply get_insert_index_other, N.
    + apply get_app_other, N.
Qed.

(** *** Reads that go on to what is inherited *)

Lemma truthy_has (k : string) (o : Obj.t) :
  Js.truthy (Obj.get k o) = true -> Obj.has k o = true.
Proof.
  intros H. destruct (Obj.has k o) eqn:Hh; [reflexivity|].
  rewrite (has_false_get _ _ Hh) in H. discriminate H.
Qed.

Lemma read_has (k : string) (o : Obj.t) :
  Obj.has k o = true -> Obj.read k o = Obj.get k o.
Proof. intros H. unfold Obj.read. rewrite H. reflexivity. Qed.

Lemma read_own (k : string) (o : Obj.t) :
  Js.truthy (Obj.get k o) = true -> Obj.read k o = Obj.get k o.
Proof. intros H. apply read_has, truthy_has, H. Qed.





(** ** The relations kept by the gateway *)

Lemma same_caches_refl (w : World) : same_caches w w.
Proof. repeat split. Qed.

Lemma same_caches_trans (a b c : World) :
  same_caches a b -> same_caches b c -> same_caches a c.
Proof.
  unfold same_caches. intros (A1 & A2 & A3) (B1 & B2 & B3).
  repeat split; congruence.
Qed.

Lemma same_requests_refl (w : World) : same_requests w w.
Proof. reflexivity. Qed.

Lemma same_requests_trans (a b c : World) :
  same_requests a b -> same_requests b c -> same_requests a c.
Proof. unfold same_requests. congruence. Qed.

Lemma traffic_same (okCall : HttpCall -> Prop)
    (okReq : GatewayRequest -> Prop) (w w' : World) :
  sent w' = sent w -> requested w' = requested w ->
  traffic okCall okReq w w'.
Proof.
  intros Hs Hr.
  split; exists []; rewrite app_nil_r; split; (assumption || constructor).
Qed.

Lemma traffic_refl (okCall : HttpCall -> Prop)
    (okReq : GatewayRequest -> Prop) (w : World) :
  traffic okCall okReq w w.
Proof. apply traffic_same; reflexivity. Qed.

Lemma traffic_trans (okCall : HttpCall -> Prop)
    (okReq : GatewayRequest -> Prop) (a b c : World) :
  traffic okCall okReq a b -> traffic okCall okReq b c ->
  traffic okCall okReq a c.
Proof.
  intros [(l1 & E1 & F1) (r1 & G1 & K1)] [(l2 & E2 & F2) (r2 & G2 & K2)].
  split.
  - exists (l1 ++ l2). rewrite E2, E1, app_assoc. split; [reflexivity|].
    apply Forall_app. split; assumption.
  - exists (r1 ++ r2). rewrite G2, G1, app_assoc. split; [reflexivity|].
    apply Forall_app. split; assumption.
Qed.

Lemma keeps_session_refl (env : Env) (w : World) : keeps_session env w w.
Proof. intros H. exact H. Qed.

Lemma keeps_session_trans (env : Env) (a b c : World) :
  keeps_session env a b -> keeps_session env b c -> keeps_session env a c.
Proof. unfold keeps_session. auto. Qed.

Section Gateway.

Variable env : Env.
Variable remote : Remote.

(** The gateway never touches the caches. *)
Lemma topstepxRequest_same_caches (m : Method) (p : string) (d : JsValue) :
  respects same_caches (topstepxRequest env remote m p d).
Proof.
  apply (respects_topstepxRequest same_caches same_caches_refl
           same_caches_trans env remote (fun _ => True) (fun _ => True));
    try (intros; repeat split; fail); auto.
Qed.

(** The calls it sends are the login call and attempts of the request,
    and the one request it puts on record is its own. *)
Lemma topstepxRequest_traffic (m : Method) (p : string) (d : JsValue) :
  respects
    (traffic (fun c => c = loginCall env \/ exists i, c = attempt i m p d)
             (fun g => g = gateway_request m p d))
    (topstepxRequest env remote m p d).
Proof.
  apply (respects_topstepxRequest _ (traffic_refl _ _) (traffic_trans _ _)
           env remote
           (fun c => c = loginCall env \/ exists i, c = attempt i m p d)
           (fun g => g = gateway_request m p d)).
  - intros c w H. split.
    + exists [c]. split; [reflexivity | constructor; [exact H | constructor]].
    + exists []. simpl. rewrite app_nil_r. split; constructor.
  - intros m' p' d' w H. split.
    + exists []. simpl. rewrite app_nil_r. split; constructor.
    + exists [gateway_request m' p' d']. split; [reflexivity|].
      constructor; [exact H | constructor].
  - intros w. apply traffic_same; reflexivity.
  - intros _ t w. apply traffic_same; reflexivity.
  - left. reflexivity.
  - intros i. right. exists i. reflexivity.
  - reflexivity.
Qed.

(** It puts exactly one request on record. *)
Lemma topstepxRequest_requested (m : Method) (p : string) (d : JsValue)
    (w : World) :
  requested (snd (topstepxRequest env remote m p d w))
  = requested w ++ [gateway_request m p d].
Proof.
  assert (Ha : forall c w0, True -> same_requests w0 (arrive remote c w0))
    by reflexivity.
  assert (Hc : forall w0, same_requests w0 (set_authToken JNull w0))
    by reflexivity.
  assert (Hl : credentials_present env = true ->
               forall t w0,
                 same_requests w0 (logged_in (getApiUrl env) t w0))
    by reflexivity.
  rewrite topstepxRequest_unfold.
  pose proof (respects_ensureAuthenticated same_requests same_requests_refl
                same_requests_trans env remote (fun _ => True) Ha Hl I
                (noted m p d w)) as H1.
  destruct (ensureAuthenticated env remote (noted m p d w)) as [[u|e] w0];
    simpl in H1; [|exact H1].
  destruct (axiosInstance w0); [|exact H1].
  pose proof (respects_attempts same_requests same_requests_refl
                same_requests_trans env remote (fun _ => True) Ha Hc Hl I
                m p d (fun _ => I) w0) as H2.
  unfold same_requests in *. rewrite H2. exact H1.
Qed.

End Gateway.

(** ** The contract lookup *)

Section Lookup.

Variable env : Env.
Variable remote : Remote.

Lemma getContractBySymbol_read (symbol : JsValue) (w : World) :
  Js.truthy (Obj.read (Js.key symbol) (contractsCache w)) = true ->
  getContractBySymbol env remote symbol w
  = (Ok (Obj.read (Js.key symbol) (contractsCache w)), w).
Proof.
  intros H. unfold getContractBySymbol, bind, gets. cbv beta iota.
  rewrite H. reflexivity.
Qed.

Lemma getContractBySymbol_cached (symbol : JsValue) (w : World) :
  Js.truthy (Obj.get (Js.key symbol) (contractsCache w)) = true ->
  getContractBySymbol env remote symbol w
  = (Ok (Obj.get (Js.key symbol) (contractsCache w)), w).
Proof.
  intros H. pose proof (read_own _ _ H) as E. rewrite <- E.
  apply getContractBySymbol_read. rewrite E. exact H.
Qed.

Lemma getContractBySymbol_uncached (symbol : JsValue) (w : World) :
  Js.truthy (Obj.read (Js.key symbol) (contractsCache w)) = false ->
  let k := Js.key symbol in
  let found :=
    topstepxRequest env remote POST "/Contract/search"
      (contractSearch symbol) w in
  let wg := snd found in
  getContractBySymbol env remote symbol w
  = match first_match (fst found) with
    | Some c =>
        let wc := set_contractsCache (Obj.set k c (contractsCache wg)) wg in
        match Js.get c "id" with
        | Ok id =>
            (Ok c,
             set_symbolToContractIdMap
               (Obj.set k id (symbolToContractIdMap wc)) wc)
        | Throw _ => (Ok JNull, wc)
        end
    | None => (Ok JNull, wg)
    end.
Proof.
  intros H k found wg. subst wg found k.
  unfold getContractBySymbol, store_contract, nonempty,
    bind, gets, try_catch, lift, ret, modify.
  cbv beta iota. rewrite H.
  destruct (topstepxRequest env remote POST "/Contract/search"
              (contractSearch symbol) w) as [[contracts|e] wg];
    [|reflexivity].
  unfold first_match, fst, snd.
  destruct (Js.truthy contracts) eqn:Ht; [|reflexivity].
  destruct (get_truthy contracts "length" Ht) as [len Hl].
  destruct (get_truthy contracts "0" Ht) as [c Hc].
  rewrite Hl, Hc.
  destruct (Js.positive len); [|reflexivity].
  destruct (Js.get c "id"); reflexivity.
Qed.






End Lookup.

(** ** Positions and orders *)

(** C8. Position retrieval and order retrieval return the empty array
    for every account id and every [onlyOpen] flag; they never throw and
    leave the world as it was, so no gateway request is started and no
    HTTP call is sent. *)
Theorem C8_positions_and_orders_are_empty
    (accountId onlyOpen : JsValue) (w : World) :
  getPositions accountId w = (Ok (JArr []), w)
  /\ getOrders accountId onlyOpen w = (Ok (JArr []), w).
Proof. split; reflexivity. Qed.

Section Closing.

Variable env : Env.
Variable remote : Remote.

Lemma getContractBySymbol_returns (symbol : JsValue) (w : World) :
  exists c, result_of (getContractBySymbol env remote symbol w) = Ok c.
Proof.
  destruct (Js.truthy (Obj.read (Js.key symbol) (contractsCache w))) eqn:H.
  - rewrite getContractBySymbol_read by exact H. eexists; reflexivity.
  - rewrite getContractBySymbol_uncached by exact H. cbv zeta.
    destruct (first_match _) as [c|]; [|eexists; reflexivity].
    destruct (Js.get c "id"); eexists; reflexivity.
Qed.

(** The lookup sends nothing but login calls and contract searches. *)
Lemma getContractBySymbol_traffic (okCall : HttpCall -> Prop)
    (okReq : GatewayRequest -> Prop) (symbol : JsValue) :
  okCall (loginCall env) ->
  (forall i s,
     okCall (attempt i POST "/Contract/search" (contractSearch s))) ->
  (forall s, okReq (searchRequest s)) ->
  respects (traffic okCall okReq) (getContractBySymbol env remote symbol).
Proof.
  intros Hl Hs Hr.
  apply (respects_getContractBySymbol _ (traffic_refl _ _) (traffic_trans _ _)
           env remote okCall okReq); try assumption.
  - intros c w H. split.
    + exists [c]. split; [reflexivity | constructor; [exact H | constructor]].
    + exists []. simpl. rewrite app_nil_r. split; constructor.
  - intros m p d w H. split.
    + exists []. simpl. rewrite app_nil_r. split; constructor.
    + exists [gateway_request m p d]. split; [reflexivity|].
      constructor; [exact H | constructor].
  - intros w. apply traffic_same; reflexivity.
  - intros _ t w. apply traffic_same; reflexivity.
  - intros o w. apply traffic_same; reflexivity.
  - intros o w. apply traffic_same; reflexivity.
Qed.

(** C9. When the symbol of a [close_position] invocation resolves to a
    contract, the handler answers with the error result saying that no
    open position was found for the symbol, and neither a gateway
    request nor an HTTP call for [/Position/close-partial] is made:
    the positions it looks through are always the empty array. *)
Theorem C9_close_position_finds_no_position
    (request : ToolRequest) (w : World) (symbol contract : JsValue) :
  Js.get (arguments request) "symbol" = Ok symbol ->
  Js.truthy symbol = true ->
  result_of (getContractBySymbol env remote symbol w) = Ok contract ->
  Js.truthy contract = true ->
  let r := handleClosePosition env remote request w in
  r = (Ok (createErrorResult [Lit "No open position found for "; Val symbol]),
       world_of (getContractBySymbol env remote symbol w))
  /\ traffic (fun c => url c <> "/Position/close-partial")
             (fun g => g_path g <> "/Position/close-partial")
             w (world_of r).
Proof.
  intros Hs Ht Hc Hct r.
  assert (E : r = (Ok (createErrorResult
                         [Lit "No open position found for "; Val symbol]),
                   world_of (getContractBySymbol env remote symbol w))).
  { subst r. unfold handleClosePosition. run. rewrite Hs.
    destruct (get_ok_all _ _ "accountId" _ Hs) as [a ->].
    destruct (get_ok_all _ _ "quantity" _ Hs) as [q ->].
    rewrite Ht. reduce.
    unfold result_of, world_of in *.
    destruct (getContractBySymbol env remote symbol w) as [[c|e] w1];
      simpl in Hc; [|discriminate].
    injection Hc as ->. rewrite Hct. reflexivity. }
  split; [exact E|]. rewrite E. unfold world_of at 1, snd at 1.
  apply getContractBySymbol_traffic.
  - discriminate.
  - intros i s. discriminate.
  - intros s. discriminate.
Qed.

End Closing.

(** ** Placing an order *)

Section Placing.

Variable env : Env.
Variable remote : Remote.

Lemma targetAccount_world (accountId : JsValue) (w : World) :
  snd (targetAccount accountId w) = w.
Proof.
  unfold targetAccount, getDefaultAccountId. run.
  destruct (Js.truthy accountId); [reflexivity|].
  destruct (Obj.values (accountsCache w)); reflexivity.
Qed.

Lemma getContractBySymbol_never_calls (path : string) (symbol : JsValue)
    (w : World) :
  path <> "/Auth/loginKey" -> path <> "/Contract/search" ->
  never_calls path w (snd (getContractBySymbol env remote symbol w)).
Proof.
  intros H1 H2. apply getContractBySymbol_traffic.
  - simpl. congruence.
  - intros i s. simpl. congruence.
  - intros s. simpl. congruence.
Qed.

(** An order that lacks the price or the stop price its type needs never
    reaches the gateway: the world is the one the contract lookup left,
    and the outcome is an error result or a thrown error. *)
Lemma placeOrder_rejected
    (symbol side quantity orderType price stopPrice accountId
       timeInForce : JsValue) (w : World) :
  (limit_like orderType && negb (Js.truthy price))
  || (stop_like orderType && negb (Js.truthy stopPrice)) = true ->
  let r := placeOrder env remote symbol side quantity orderType price
             stopPrice accountId timeInForce w in
  snd r = (if negb (Js.truthy symbol) || negb (Js.truthy side)
              || negb (Js.truthy quantity)
           then w
           else snd (getContractBySymbol env remote symbol w))
  /\ match fst r with
     | Ok res => isError res = true
     | Throw _ => True
     end.
Proof.
  intros H r. subst r. unfold placeOrder.
  destruct (negb (Js.truthy symbol) || negb (Js.truthy side)
            || negb (Js.truthy quantity)).
  { split; reflexivity. }
  run.
  destruct (getContractBySymbol env remote symbol w) as [[c|e] w1];
    [|split; [reflexivity | exact I]].
  destruct (Js.truthy c) eqn:Hc; reduce; [|split; reflexivity].
  pose proof (targetAccount_world accountId w1) as Hw.
  destruct (targetAccount accountId w1) as [[t|e] w2]; simpl in Hw; subst w2;
    [|split; [reflexivity | exact I]].
  destruct (Js.truthy t); reduce; [|split; reflexivity].
  destruct (get_truthy c "id" Hc) as [id Hid].
  rewrite Hid. reduce.
  fold (limit_like orderType). fold (stop_like orderType).
  destruct (limit_like orderType && negb (Js.truthy price)) eqn:Hl;
    [split; reflexivity|].
  simpl in H. rewrite H. split; reflexivity.
Qed.

Lemma handlePlaceOrder_fields
    (symbol side quantity orderType price stopPrice accountId
       timeInForce : JsValue) (w : World) :
  handlePlaceOrder env remote
    (place_order_request symbol side quantity orderType price stopPrice
       accountId timeInForce) w
  = try_catch
      (placeOrder env remote symbol side quantity
         (Js.default orderType (JStr "Market")) price stopPrice accountId
         (Js.default timeInForce (JStr "Day")))
      (fun error =>
         ret (createErrorResult [Lit "Failed to place order: "; Thrown error]))
      w.
Proof. reflexivity. Qed.

Lemma limit_like_default (orderType : JsValue) :
  limit_like (Js.default orderType (JStr "Market")) = limit_like orderType.
Proof. destruct orderType; reflexivity. Qed.

Lemma stop_like_default (orderType : JsValue) :
  stop_like (Js.default orderType (JStr "Market")) = stop_like orderType.
Proof. destruct orderType; reflexivity. Qed.

(** A falsy price is never looked at again once the check has passed. *)
Lemma placeOrder_price_falsy
    (symbol side quantity orderType price price' stopPrice accountId
       timeInForce : JsValue) (w : World) :
  Js.truthy price = false -> Js.truthy price' = false ->
  placeOrder env remote symbol side quantity orderType price stopPrice
    accountId timeInForce w
  = placeOrder env remote symbol side quantity orderType price' stopPrice
      accountId timeInForce w.
Proof.
  intros H H'. unfold placeOrder. rewrite H, H'.
  fold (limit_like orderType). destruct (limit_like orderType); reflexivity.
Qed.

Lemma placeOrder_stopPrice_falsy
    (symbol side quantity orderType price stopPrice stopPrice' accountId
       timeInForce : JsValue) (w : World) :
  Js.truthy stopPrice = false -> Js.truthy stopPrice' = false ->
  placeOrder env remote symbol side quantity orderType price stopPrice
    accountId timeInForce w
  = placeOrder env remote symbol side quantity orderType price stopPrice'
      accountId timeInForce w.
Proof.
  intros H H'. unfold placeOrder. rewrite H, H'.
  fold (stop_like orderType). destruct (stop_like orderType); reflexivity.
Qed.

Lemma handlePlaceOrder_rejected
    (symbol side quantity orderType price stopPrice accountId
       timeInForce : JsValue) (w : World) :
  (limit_like orderType && negb (Js.truthy price))
  || (stop_like orderType && negb (Js.truthy stopPrice)) = true ->
  let r := handlePlaceOrder env remote
             (place_order_request symbol side quantity orderType price
                stopPrice accountId timeInForce) w in
  error_result r
  /\ snd r = (if negb (Js.truthy symbol) || negb (Js.truthy side)
                 || negb (Js.truthy quantity)
              then w
              else snd (getContractBySymbol env remote symbol w))
  /\ never_calls "/Order/place" w (snd r).
Proof.
  intros H r. subst r. rewrite handlePlaceOrder_fields.
  rewrite <- limit_like_default, <- stop_like_default in H.
  pose proof (placeOrder_rejected symbol side quantity
                (Js.default orderType (JStr "Market")) price stopPrice
                accountId (Js.default timeInForce (JStr "Day")) w H)
    as [Hw Hr].
  cbv zeta in Hw, Hr. unfold try_catch, error_result.
  assert (Hn : never_calls "/Order/place" w
                 (if negb (Js.truthy symbol) || negb (Js.truthy side)
                     || negb (Js.truthy quantity)
                  then w
                  else snd (getContractBySymbol env remote symbol w))).
  { destruct (negb (Js.truthy symbol) || negb (Js.truthy side)
              || negb (Js.truthy quantity)); [apply traffic_refl|].
    apply getContractBySymbol_never_calls; discriminate. }
  destruct (placeOrder env remote symbol side quantity
              (Js.default orderType (JStr "Market")) price stopPrice
              accountId (Js.default timeInForce (JStr "Day")) w)
    as [[res|e] w1]; simpl in *; subst w1.
  - split; [exists res; split; [reflexivity | exact Hr]|].
    split; [reflexivity | exact Hn].
  - split; [eexists; split; reflexivity|].
    split; [reflexivity | exact Hn].
Qed.

(** With everything else in place the rejection names the price, or,
    when the price check is passed or does not apply, the stop price. *)
Lemma placeOrder_ready
    (symbol side quantity orderType price stopPrice accountId
       timeInForce : JsValue) (w : World) :
  ready_to_order symbol side quantity accountId w ->
  (limit_like orderType && negb (Js.truthy price))
  || (stop_like orderType && negb (Js.truthy stopPrice)) = true ->
  placeOrder env remote symbol side quantity orderType price stopPrice
    accountId timeInForce w
  = (Ok (createErrorResult
           [Lit (if limit_like orderType && negb (Js.truthy price)
                 then "Price is required for Limit orders"
                 else "Stop price is required for Stop orders")]), w).
Proof.
  intros (Hs & Hd & Hq & Hc & t & Ht & Htt) H.
  unfold placeOrder. rewrite Hs, Hd, Hq. reduce. run.
  rewrite getContractBySymbol_cached by exact Hc. reduce. rewrite Hc. reduce.
  pose proof (targetAccount_world accountId w) as Hw.
  destruct (targetAccount accountId w) as [r w']. simpl in Ht, Hw.
  subst r w'. rewrite Htt. reduce.
  destruct (get_truthy _ "id" Hc) as [id ->]. reduce.
  fold (limit_like orderType). fold (stop_like orderType).
  destruct (limit_like orderType && negb (Js.truthy price)); [reflexivity|].
  simpl in H. rewrite H. reflexivity.
Qed.

(** C10. [place_order] reads a falsy argument as an absent one.
    A quantity of 0 is answered with the missing-required-arguments
    error and the world is untouched.  A price of 0 gives exactly the
    outcome of an invocation without a price; with order type Limit or
    StopLimit that outcome is an error result, it is the
    price-required error once symbol, side, quantity, contract and
    account are in place, and no [/Order/place] is requested or sent.
    A stop price of 0 gives exactly the outcome of an invocation without
    a stop price; with order type Stop or StopLimit that outcome is an
    error result, it is the stop-price-required error once everything
    before it is in place (for StopLimit that includes a price), and no
    [/Order/place] is requested or sent. *)
Theorem C10_zero_is_read_as_absent
    (symbol side quantity orderType price stopPrice accountId
       timeInForce : JsValue) (w : World) :
  let place q pr sp :=
    handlePlaceOrder env remote
      (place_order_request symbol side q orderType pr sp accountId
         timeInForce) w in
  place (JNum 0) price stopPrice
  = (Ok (createErrorResult [Lit "Symbol, side, and quantity are required"]),
     w)
  /\ place quantity (JNum 0) stopPrice = place quantity JUndefined stopPrice
  /\ (limit_like orderType = true ->
      error_result (place quantity (JNum 0) stopPrice)
      /\ never_calls "/Order/place" w
           (snd (place quantity (JNum 0) stopPrice))
      /\ (ready_to_order symbol side quantity accountId w ->
          place quantity (JNum 0) stopPrice
          = (Ok (createErrorResult
                   [Lit "Price is required for Limit orders"]), w)))
  /\ place quantity price (JNum 0) = place quantity price JUndefined
  /\ (stop_like orderType = true ->
      error_result (place quantity price (JNum 0))
      /\ never_calls "/Order/place" w
           (snd (place quantity price (JNum 0)))
      /\ (ready_to_order symbol side quantity accountId w ->
          limit_like orderType = false \/ Js.truthy price = true ->
          place quantity price (JNum 0)
          = (Ok (createErrorResult
                   [Lit "Stop price is required for Stop orders"]), w))).
Proof.
  intros place. subst place. cbv beta.
  split; [|split; [|split; [|split]]].
  - rewrite handlePlaceOrder_fields. unfold try_catch, placeOrder.
    cbn [Js.truthy Z.eqb negb]. rewrite !orb_true_r. reflexivity.
  - rewrite !handlePlaceOrder_fields. unfold try_catch.
    rewrite (placeOrder_price_falsy _ _ _ _ (JNum 0) JUndefined);
      reflexivity.
  - intros Hl.
    assert (H : limit_like orderType && negb (Js.truthy (JNum 0))
                || stop_like orderType && negb (Js.truthy stopPrice) = true).
    { rewrite Hl. reflexivity. }
    destruct (handlePlaceOrder_rejected symbol side quantity orderType
                (JNum 0) stopPrice accountId timeInForce w H) as (He & _ & Hn).
    split; [exact He | split; [exact Hn|]].
    intros Hready. rewrite handlePlaceOrder_fields. unfold try_catch.
    rewrite placeOrder_ready; [| exact Hready |].
    + rewrite limit_like_default, Hl. reflexivity.
    + rewrite limit_like_default, Hl. reflexivity.
  - rewrite !handlePlaceOrder_fields. unfold try_catch.
    rewrite (placeOrder_stopPrice_falsy _ _ _ _ _ (JNum 0) JUndefined);
      reflexivity.
  - intros Hs.
    assert (H : limit_like orderType && negb (Js.truthy price)
                || stop_like orderType && negb (Js.truthy (JNum 0)) = true).
    { rewrite Hs. apply orb_true_r. }
    destruct (handlePlaceOrder_rejected symbol side quantity orderType
                price (JNum 0) accountId timeInForce w H) as (He & _ & Hn).
    split; [exact He | split; [exact Hn|]].
    intros Hready Hp. rewrite handlePlaceOrder_fields. unfold try_catch.
    rewrite placeOrder_ready; [| exact Hready |].
    + rewrite limit_like_default.
      destruct Hp as [-> | ->]; [reflexivity|].
      rewrite andb_false_r. reflexivity.
    + rewrite limit_like_default, stop_like_default, Hs. apply orb_true_r.
Qed.

End Placing.

(** ** Validation in the dispatcher *)




Section Validation.

Variable env : Env.
Variable remote : Remote.
Variable toISOString : Z -> string.









End Validation.

Section Dispatch.

Variable env : Env.
Variable remote : Remote.
Variable toISOString : Z -> string.





End Dispatch.

(** ** The refresh *)

Lemma clear_accounts_numeric (o : Obj.t) :
  numeric_keys o -> clear_accounts o = [].
Proof.
  unfold numeric_keys, clear_accounts.
  induction o as [|[k v] o IH]; simpl; [reflexivity|].
  intros H. inversion H as [|? ? Hk Hrest]; subst.
  rewrite Hk, String.eqb_refl. apply IH, Hrest.
Qed.

Lemma get_filed (accounts : list JsValue) (o : Obj.t) (k : string) :
  Obj.get k (filed accounts o)
  = fold_left (fun found a => if (account_key a =? k)%string then a else found)
      accounts (Obj.get k o).
Proof.
  unfold filed. revert o.
  induction accounts as [|a accounts IH]; intros o; simpl; [reflexivity|].
  rewrite IH. f_equal.
  destruct (account_key a =? k)%string eqn:E.
  - apply String.eqb_eq in E. subst k. apply get_set_same.
  - apply String.eqb_neq in E. apply get_set_other. congruence.
Qed.

(** Filing the accounts of an array stops at the first entry without
    properties; everything before it is filed, nothing else changes. *)
Lemma for_each_store_account (l : list JsValue) (w : World) :
  accountsCache (snd (for_each l store_account w))
  = filed (usable l) (accountsCache w).
Proof.
  unfold filed. revert w. induction l as [|a l IH]; intros w; [reflexivity|].
  simpl for_each. unfold bind, store_account at 1.
  unfold bind, lift, modify.
  destruct a; simpl Js.get; cbv beta iota; try reflexivity;
    rewrite IH; reflexivity.
Qed.

(** A write adds at most its own key. *)
Lemma keys_replace (k : string) (v : JsValue) (o : Obj.t) (k' : string) :
  In k' (Obj.keys (Obj.replace k v o)) -> k' = k \/ In k' (Obj.keys o).
Proof.
  induction o as [|[k0 v0] o IH]; simpl; [tauto|].
  destruct (k0 =? k)%string; simpl; intros [H | H]; auto.
  destruct (IH H); auto.
Qed.

Lemma keys_insert_index (i : N) (k : string) (v : JsValue) (o : Obj.t)
    (k' : string) :
  In k' (Obj.keys (Obj.insert_index i k v o)) ->
  k' = k \/ In k' (Obj.keys o).
Proof.
  induction o as [|[k0 v0] o IH]; simpl.
  - intros [H | []]. left. congruence.
  - destruct (Js.array_index k0) as [j|]; [destruct (j <? i)%N|]; simpl;
      intros [H | H]; auto.
    destruct (IH H); auto.
Qed.

Lemma keys_set (k : string) (v : JsValue) (o : Obj.t) (k' : string) :
  In k' (Obj.keys (Obj.set k v o)) -> k' = k \/ In k' (Obj.keys o).
Proof.
  unfold Obj.set. destruct (Obj.has k o).
  - apply keys_replace.
  - destruct (Js.array_index k).
    + apply keys_insert_index.
    + unfold Obj.keys. rewrite map_app, in_app_iff. simpl.
      intros [H | [H | []]]; auto.
Qed.

(** The text of a number is the text of the number it reads as. *)
Lemma number_key_of_number (n : Z) :
  Js.number_key (Js.string_of_Z n) = Js.string_of_Z n.
Proof.
  unfold Js.number_key, Js.parse_number, Js.string_of_Z.
  assert (E : NilZero.int_of_string (NilZero.string_of_int (Z.to_int n))
              = Some (Z.to_int n)).
  { apply NilZero.isi; destruct n; simpl; try discriminate;
      intros H; injection H as H;
      exact (DecimalPos.Unsigned.to_uint_nonnil _ H). }
  destruct (NilZero.string_of_int (Z.to_int n) =? "")%string eqn:Z0.
  - apply String.eqb_eq in Z0. rewrite Z0 in E. discriminate E.
  - rewrite E. simpl. rewrite DecimalZ.of_to. reflexivity.
Qed.

Lemma numeric_keys_filed (accounts : list JsValue) (o : Obj.t) :
  Forall numeric_id accounts -> numeric_keys o ->
  numeric_keys (filed accounts o).
Proof.
  unfold filed. revert o.
  induction accounts as [|a accounts IH]; intros o Ha Ho; simpl;
    [exact Ho|].
  inversion Ha as [|? ? [n Hn] Hrest]; subst.
  apply IH; [exact Hrest|].
  unfold numeric_keys in *. rewrite Forall_forall in *.
  intros k' Hk. destruct (keys_set _ _ _ _ Hk) as [-> | H]; [|auto].
  unfold account_key. rewrite Hn. apply number_key_of_number.
Qed.

Section Refresh.

Variable env : Env.
Variable remote : Remote.

Lemma loadAccounts_returns (w : World) :
  fst (loadAccounts env remote w) = Ok tt.
Proof.
  unfold loadAccounts.
  match goal with
  | |- fst (try_catch ?body _ w) = _ =>
      destruct (try_catch_returns body (fun _ => tt) w) as ([] & w' & E)
  end.
  rewrite E. reflexivity.
Qed.

Lemma loadContracts_returns (w : World) :
  fst (loadContracts env remote w) = Ok tt.
Proof.
  unfold loadContracts.
  match goal with
  | |- fst (try_catch ?body _ w) = _ =>
      destruct (try_catch_returns body (fun _ => tt) w) as ([] & w' & E)
  end.
  rewrite E. reflexivity.
Qed.

Lemma loadContracts_same_accounts :
  respects same_accounts (loadContracts env remote).
Proof.
  apply (respects_loadContracts same_accounts) with
    (okCall := fun _ => True) (okReq := fun _ => True);
    try (intros; reflexivity); try exact I.
  unfold same_accounts. intros a b c H1 H2. congruence.
Qed.

(** What [loadAccounts] leaves in the account cache. *)
Lemma loadAccounts_cache (w : World) :
  numeric_keys (accountsCache w) ->
  let search :=
    topstepxRequest env remote POST "/Account/search" accountSearch w in
  accountsCache (snd (loadAccounts env remote w))
  = match fst search with
    | Ok response => filed (returned_accounts response) []
    | Throw _ => accountsCache w
    end.
Proof.
  intros Hnum search.
  pose proof (topstepxRequest_same_caches env remote POST "/Account/search"
                accountSearch w) as (Hacc & _).
  subst search.
  destruct (topstepxRequest env remote POST "/Account/search" accountSearch w)
    as [[response|e] wg] eqn:Es; simpl fst; simpl snd in Hacc.
  - unfold loadAccounts, try_catch. step. rewrite Es.
    unfold bind at 1, modify. cbv beta iota.
    rewrite Hacc, (clear_accounts_numeric _ Hnum).
    unfold returned_accounts.
    destruct (Js.truthy response) eqn:Ht.
    + destruct (get_truthy response "accounts" Ht) as [accounts Ha].
      rewrite Ha. unfold bind at 1, lift. cbv beta iota.
      destruct (Js.truthy accounts) eqn:Hta; unfold forEach.
      * destruct accounts; try discriminate; try reflexivity.
        match goal with
        | |- context [for_each ?l store_account ?w0] =>
            pose proof (for_each_store_account l w0) as Hf;
            destruct (for_each l store_account w0) as [[[]|e] w2]
        end; simpl snd in Hf |- *; rewrite Hf; reflexivity.
      * destruct accounts; try discriminate; reflexivity.
    + unfold bind at 1, ret. cbv beta iota. rewrite Ht. reflexivity.
  - unfold loadAccounts, try_catch. step. rewrite Es. exact Hacc.
Qed.

Lemma loadAccounts_accounts (w : World) :
  numeric_keys (accountsCache w) ->
  let search :=
    topstepxRequest env remote POST "/Account/search" accountSearch w in
  match fst search with
  | Ok response =>
      forall k,
        Obj.get k (accountsCache (snd (loadAccounts env remote w)))
        = latest k (returned_accounts response)
  | Throw _ =>
      accountsCache (snd (loadAccounts env remote w)) = accountsCache w
  end.
Proof.
  intros Hnum search. rewrite (loadAccounts_cache w Hnum). fold search.
  destruct (fst search); [|reflexivity].
  intros k. apply (get_filed _ [] k).
Qed.

(** With numbers as account ids, the keys of the account cache stay
    texts of numbers through a refresh. *)
Lemma initializeData_numeric_keys (w : World) :
  typed_accounts env remote ->
  numeric_keys (accountsCache w) ->
  numeric_keys (accountsCache (snd (initializeData env remote w))).
Proof.
  intros Htyped Hnum.
  pose proof (loadAccounts_cache w Hnum) as Ha. cbv zeta in Ha.
  pose proof (Htyped w) as Ht.
  pose proof (loadAccounts_returns w) as H1.
  unfold initializeData, try_catch, bind.
  destruct (loadAccounts env remote w) as [[[]|e] w1]; simpl in H1;
    [|discriminate].
  pose proof (loadContracts_returns w1) as H2.
  pose proof (loadContracts_same_accounts w1) as H3.
  destruct (loadContracts env remote w1) as [[[]|e] w2]; simpl in H2;
    [|discriminate].
  unfold same_accounts in H3. simpl in *. rewrite H3, Ha.
  destruct (fst (topstepxRequest env remote POST "/Account/search"
                   accountSearch w)) as [response|e]; [|exact Hnum].
  apply numeric_keys_filed; [apply Ht; reflexivity | constructor].
Qed.

(** The refresh never throws, whatever happens to the account search
    and to the contract searches.  Afterwards the account cache holds
    exactly the accounts that the gateway handed back for this refresh's
    account search, each under its id (the last one for an id that
    occurs twice); when the gateway threw, the account cache is the one
    from before. *)
Lemma refresh_mirrors_gateway_result (w : World) :
  numeric_keys (accountsCache w) ->
  let r := initializeData env remote w in
  let search :=
    topstepxRequest env remote POST "/Account/search" accountSearch w in
  fst r = Ok tt
  /\ match fst search with
     | Ok response =>
         forall k,
           Obj.get k (accountsCache (snd r))
           = latest k (returned_accounts response)
     | Throw _ => accountsCache (snd r) = accountsCache w
     end.
Proof.
  intros Hnum r search. subst r.
  pose proof (loadAccounts_accounts w Hnum) as Ha. cbv zeta in Ha.
  fold search in Ha.
  pose proof (loadAccounts_returns w) as H1.
  unfold initializeData, try_catch, bind.
  destruct (loadAccounts env remote w) as [[[]|e] w1]; simpl in H1;
    [|discriminate].
  pose proof (loadContracts_returns w1) as H2.
  pose proof (loadContracts_same_accounts w1) as H3.
  destruct (loadContracts env remote w1) as [[[]|e] w2]; simpl in H2;
    [|discriminate].
  unfold same_accounts in H3. simpl in *.
  split; [reflexivity|].
  destruct (fst search); [intros k|]; rewrite H3; apply Ha.
Qed.

End Refresh.

(** ** What every run keeps *)

Section Everywhere.

Variable R : World -> World -> Prop.
Hypothesis R_refl : forall w, R w w.
Hypothesis R_trans : forall a b c, R a b -> R b c -> R a c.

Variable env : Env.
Variable remote : Remote.
Variable toISOString : Z -> string.

Hypothesis R_arrive : forall c w, R w (arrive remote c w).
Hypothesis R_noted : forall m p d w, R w (noted m p d w).
Hypothesis R_clear : forall w, R w (set_authToken JNull w).
Hypothesis R_login :
  credentials_present env = true ->
  forall t w, R w (logged_in (getApiUrl env) t w).
Hypothesis R_contracts : forall o w, R w (set_contractsCache o w).
Hypothesis R_ids : forall o w, R w (set_symbolToContractIdMap o w).

Lemma every_authenticate : respects R (authenticate env remote).
Proof.
  apply (respects_authenticate R R_refl R_trans env remote (fun _ => True));
    auto.
Qed.

Lemma every_request (m : Method) (p : string) (d : JsValue) :
  respects R (topstepxRequest env remote m p d).
Proof.
  apply (respects_topstepxRequest R R_refl R_trans env remote
           (fun _ => True) (fun _ => True)); auto.
Qed.

Lemma every_lookup (symbol : JsValue) :
  respects R (getContractBySymbol env remote symbol).
Proof.
  apply (respects_getContractBySymbol R R_refl R_trans env remote
           (fun _ => True) (fun _ => True)); auto.
Qed.

Lemma every_loadContracts : respects R (loadContracts env remote).
Proof.
  apply (respects_loadContracts R R_refl R_trans env remote
           (fun _ => True) (fun _ => True)); auto.
Qed.

Lemma every_targetAccount (accountId : JsValue) :
  respects R (targetAccount accountId).
Proof. apply respects_targetAccount; auto. Qed.

Lemma every_nonempty (v : JsValue) : respects R (nonempty v).
Proof. apply respects_nonempty; auto. Qed.

(** Walk through a handler: sequences, [try], branches and the calls
    already dealt with. *)
Ltac walk :=
  repeat first
    [ apply respects_ret; assumption
    | apply respects_throw; assumption
    | apply respects_lift; assumption
    | apply respects_gets; assumption
    | apply every_request
    | apply every_lookup
    | apply every_targetAccount
    | apply every_nonempty
    | apply respects_bind; [assumption | | intro]
    | apply respects_try_catch; [assumption | | intro]
    | progress cbv zeta
    | match goal with
      | |- respects _ (if ?b then _ else _) => destruct b
      | |- respects _ (match ?x with _ => _ end) => destruct x
      end ].

Lemma every_callTool (request : ToolRequest) :
  respects R (callTool env remote toISOString request).
Proof.
  unfold callTool,
    handleGetAccounts, handleGetContractDetails, handleSearchContracts,
    handleGetCommonContracts, handleListPositions, handlePlaceOrder,
    placeOrder, handleClosePosition, handleModifyOrder, handleCancelOrder,
    handleListOrders, handleGetAccountSummary, handleGetMarketData,
    handleGetBars, getPositions, getOrders.
  walk.
Qed.

Hypothesis R_accounts : forall o w, R w (set_accountsCache o w).

Lemma every_initializeData : respects R (initializeData env remote).
Proof.
  unfold initializeData, loadAccounts, forEach, store_account.
  apply respects_try_catch; [assumption | | intro; walk].
  apply respects_bind; [assumption | | intro; apply every_loadContracts].
  apply respects_try_catch; [assumption | | intro; walk].
  apply respects_bind; [assumption | apply every_request | intro].
  apply respects_bind;
    [assumption | apply respects_modify; intro; apply R_accounts | intro].
  apply respects_bind; [assumption | walk | intro].
  destruct (Js.truthy _); [|walk].
  destruct a1; walk.
  apply respects_for_each; [assumption | assumption | intro].
  apply respects_bind; [assumption | walk | intro].
  apply respects_modify. intro. apply R_accounts.
Qed.

End Everywhere.

Section Invariants.

Variable env : Env.
Variable remote : Remote.
Variable toISOString : Z -> string.

(** The invariant of the session variables holds in every world a
    process goes through. *)
Lemma reachable_session_inv (w : World) :
  reachable env remote toISOString w -> session_inv env w.
Proof.
  pose proof (every_authenticate (keeps_session env) (keeps_session_refl env)
                (keeps_session_trans env) env remote) as Hauth.
  pose proof (every_initializeData (keeps_session env)
                (keeps_session_refl env) (keeps_session_trans env)
                env remote) as Hinit.
  pose proof (every_callTool (keeps_session env) (keeps_session_refl env)
                (keeps_session_trans env) env remote toISOString) as Htool.
  unfold respects, keeps_session in Hauth, Hinit, Htool.
  induction 1 as [t0 | dt w _ IH | w _ IH | w _ IH | request w _ IH].
  - intros H. discriminate H.
  - exact IH.
  - apply Hauth; try (intros; assumption).
    intros Hc t w' _ _. repeat split; [exact Hc | discriminate..].
  - apply Hinit; try (intros; assumption).
    + intros w' _ H. discriminate H.
    + intros Hc t w' _ _. repeat split; [exact Hc | discriminate..].
  - apply Htool; try (intros; assumption).
    + intros w' _ H. discriminate H.
    + intros Hc t w' _ _. repeat split; [exact Hc | discriminate..].
Qed.

(** Tool invocations never write to the account cache. *)
Lemma callTool_same_accounts (request : ToolRequest) :
  respects same_accounts (callTool env remote toISOString request).
Proof.
  apply every_callTool; try (intros; reflexivity).
  unfold same_accounts. intros a b c H1 H2. congruence.
Qed.

Lemma authenticate_same_accounts :
  respects same_accounts (authenticate env remote).
Proof.
  apply every_authenticate; try (intros; reflexivity).
  unfold same_accounts. intros a b c H1 H2. congruence.
Qed.

(** With numbers as account ids, the keys of the account cache are
    texts of numbers in every world a process goes through. *)
Lemma reachable_numeric_keys (w : World) :
  typed_accounts env remote ->
  reachable env remote toISOString w -> numeric_keys (accountsCache w).
Proof.
  intros Htyped.
  induction 1 as [t0 | dt w _ IH | w _ IH | w _ IH | request w _ IH].
  - constructor.
  - exact IH.
  - rewrite (authenticate_same_accounts w). exact IH.
  - apply initializeData_numeric_keys; assumption.
  - rewrite (callTool_same_accounts request w). exact IH.
Qed.

End Invariants.

(** ** The base URL *)

(** C4 (as amended). The base URL is a function of the environment flag
    alone, with three distinct outcomes: "demo", "topstepx", the empty
    value and an absent flag select the TopstepX host, "live" selects
    the live gateway host, and every other value selects the demo
    gateway host. *)
Theorem C4_base_url_selection (env : Env) :
  getApiUrl env = base_url_selection (env "TOPSTEPX_ENVIRONMENT")
  /\ host_topstepx <> host_live
  /\ host_topstepx <> host_demo
  /\ host_live <> host_demo.
Proof.
  split; [|repeat split; discriminate].
  unfold getApiUrl, getenv, base_url_selection.
  destruct (env "TOPSTEPX_ENVIRONMENT") as [v|]; [|reflexivity].
  unfold Js.or, Js.truthy, Js.is_str.
  destruct (v =? "")%string eqn:E; [reflexivity|].
  cbn [negb orb]. rewrite orb_comm. reflexivity.
Qed.

(** C4, the claim as worded fails: with the flag absent the TopstepX
    host is selected, not the third host. *)
Lemma C4_absent_flag_selects_first_host :
  ~ absent_flag_selects_third_host Scenario.no_env.
Proof.
  unfold absent_flag_selects_third_host. intros H.
  specialize (H eq_refl). discriminate H.
Qed.

(** ** Normalisation of responses *)

(** The first response is handled as the envelope rule says. *)
Lemma normalize_envelope (body success : JsValue) :
  Js.get body "success" = Ok success ->
  normalize body
  = match success with
    | JUndefined => Ok body
    | JBool true =>
        match Js.get body "data" with
        | Ok JUndefined => Ok body
        | other => other
        end
    | JBool false =>
        match Js.get body "errorMessage" with
        | Ok message => Throw (Err (Js.or message (JStr "Request failed")))
        | Throw e => Throw e
        end
    | other =>
        if Js.truthy other then
          match Js.get body "data" with
          | Ok JUndefined => Ok body
          | other => other
          end
        else
          match Js.get body "errorMessage" with
          | Ok message => Throw (Err (Js.or message (JStr "Request failed")))
          | Throw e => Throw e
          end
    end.
Proof.
  intros H. unfold normalize. rewrite H.
  destruct (get_ok_all _ _ "data" _ H) as [d ->].
  destruct success as [| |[|]| | | |]; try reflexivity;
    try (destruct d; reflexivity);
    cbn [Js.defined]; destruct (Js.truthy _); try reflexivity;
    destruct d; reflexivity.
Qed.

(** The retried response is not: without a [success] field it is an
    error, and a successful envelope without [data] yields [undefined]. *)
Lemma normalize_retry_differs (body : JsValue) :
  Js.get body "success" = Ok JUndefined ->
  exists message,
    Js.get body "errorMessage" = Ok message
    /\ normalize body = Ok body
    /\ normalize_retry body
       = Throw (Err (Js.or message (JStr "Request failed"))).
Proof.
  intros H. destruct (get_ok_all _ _ "errorMessage" _ H) as [m Hm].
  exists m. unfold normalize, normalize_retry. rewrite H, Hm.
  repeat split.
Qed.

(** C3, evaluated where the code departs from the rule.  The same flat
    payload is returned unchanged when it answers the first attempt and
    becomes the error "Request failed" when it answers the retry after a
    401; a successful envelope without [data] answering the retry
    yields [undefined] instead of the envelope. *)
Theorem C3_retry_response_is_handled_differently :
  let flat := JArr [Scenario.mes] in
  let envelope := JObj [("success", JBool true); ("accounts", JArr [])] in
  let request remote :=
    fst (topstepxRequest Scenario.env remote POST "/Contract/search"
           Scenario.search_mes Scenario.signed_in) in
  request Scenario.answers_flat = Ok flat
  /\ request (Scenario.expires_then flat) = Throw (Err (JStr "Request failed"))
  /\ request (Scenario.expires_then envelope) = Ok JUndefined.
Proof. repeat split; vm_compute; reflexivity. Qed.

(** ** The operations on values, at a few inputs *)

Example key_of_number : Js.key (JNum 42) = "42".
Proof. reflexivity. Qed.

Example key_of_array : Js.key (JArr [JNum 1; JNull; JStr "x"]) = "1,,x".
Proof. reflexivity. Qed.

Example zero_is_falsy :
  Js.truthy (JNum 0) = false /\ Js.truthy (JStr "") = false
  /\ Js.truthy (JArr []) = true.
Proof. repeat split. Qed.

Example index_keys_come_first :
  Obj.keys (Obj.set "7" JNull (Obj.set "MES" JNull (Obj.set "42" JNull [])))
  = ["7"; "42"; "MES"].
Proof. reflexivity. Qed.

Example padded_key_is_no_index :
  Js.array_index "007" = None /\ Js.array_index "7" = Some 7%N.
Proof. split; reflexivity. Qed.

Example clear_accounts_leaves_other_keys :
  clear_accounts [("42", JNull); ("abc", JNull)] = [("abc", JNull)].
Proof. reflexivity. Qed.

Example live_flag : getApiUrl (fun _ => Some "live") = host_live.
Proof. reflexivity. Qed.

Example other_flag : getApiUrl (fun _ => Some "staging") = host_demo.
Proof. reflexivity. Qed.

Example first_login :
  authenticate Scenario.env Scenario.grants Scenario.fresh
  = (Ok tt,
     logged_in host_topstepx (JStr "t1")
       (arrive Scenario.grants (loginCall Scenario.env) Scenario.fresh)).
Proof. reflexivity. Qed.

Example login_without_credentials :
  authenticate Scenario.no_env Scenario.grants Scenario.fresh
  = (Throw (Err missing_credentials), Scenario.fresh).
Proof. reflexivity. Qed.

Example default_account :
  fst (getDefaultAccountId Scenario.trading) = Ok (JNum 42).
Proof. reflexivity. Qed.

Example unknown_tool :
  fst (callTool Scenario.env Scenario.grants Scenario.iso
         {| name := "get_quotes"; arguments := JUndefined |} Scenario.trading)
  = Ok {| content := PlainText [Lit "Unknown tool: "; Lit "get_quotes"];
          isError := true |}.
Proof. reflexivity. Qed.

Example accounts_of_empty_cache :
  fst (callTool Scenario.env Scenario.grants Scenario.iso
         {| name := "get_accounts"; arguments := JObj [] |} Scenario.signed_in)
  = Ok (createToolResult (JObj [("accounts", JArr []); ("count", JNum 0)])).
Proof. reflexivity. Qed.

(** * The claims at concrete inputs *)





(** C5, evaluated where the code departs from the claim.  The refresh
    returns normally in both runs.  When the platform answers the
    account search at once, the account cache holds the account it
    listed.  When the platform first rejects the token and lists the
    same account in its answer to the retried search, the account cache
    ends up empty: the old entry is gone and the listed account was
    never filed. *)
Theorem C5_refresh_after_401_loses_the_accounts :
  let refresh remote :=
    initializeData Scenario.env remote Scenario.with_old_account in
  fst (refresh Scenario.lists_account) = Ok tt
  /\ accountsCache (snd (refresh Scenario.lists_account))
     = [("42", Scenario.account)]
  /\ fst (refresh (Scenario.expires_then Scenario.accounts_envelope)) = Ok tt
  /\ accountsCache
       (snd (refresh (Scenario.expires_then Scenario.accounts_envelope)))
     = [].
Proof. repeat split; vm_compute; reflexivity. Qed.




(** C9 at a cached symbol. *)
Lemma C9_witness :
  Js.get (arguments Scenario.close_mes) "symbol" = Ok (JStr "MES")
  /\ Js.truthy (JStr "MES") = true
  /\ result_of (getContractBySymbol Scenario.env Scenario.grants (JStr "MES")
                  Scenario.trading) = Ok Scenario.mes
  /\ Js.truthy Scenario.mes = true
  /\ handleClosePosition Scenario.env Scenario.grants Scenario.close_mes
       Scenario.trading
     = (Ok (createErrorResult
              [Lit "No open position found for "; Val (JStr "MES")]),
        Scenario.trading).
Proof.
  repeat (split; [reflexivity|]).
  exact (proj1 (C9_close_position_finds_no_position Scenario.env
                  Scenario.grants Scenario.close_mes Scenario.trading
                  (JStr "MES") Scenario.mes eq_refl eq_refl eq_refl eq_refl)).
Defined.

(** C10 at a Limit order with price 0 and a Stop order with stop price 0
    for a cached symbol. *)
Lemma C10_witness :
  limit_like (JStr "Limit") = true
  /\ ready_to_order (JStr "MES") (JStr "Buy") (JNum 1) JUndefined
       Scenario.trading
  /\ handlePlaceOrder Scenario.env Scenario.grants
       (place_order_request (JStr "MES") (JStr "Buy") (JNum 1) (JStr "Limit")
          (JNum 0) JUndefined JUndefined JUndefined) Scenario.trading
     = (Ok (createErrorResult [Lit "Price is required for Limit orders"]),
        Scenario.trading).
Proof.
  assert (H : ready_to_order (JStr "MES") (JStr "Buy") (JNum 1) JUndefined
                Scenario.trading).
  { repeat split. exists (JNum 42). split; reflexivity. }
  split; [reflexivity | split; [exact H|]].
  pose proof (C10_zero_is_read_as_absent Scenario.env Scenario.grants
                (JStr "MES") (JStr "Buy") (JNum 1) (JStr "Limit")
                (JNum 0) JUndefined JUndefined JUndefined Scenario.trading)
    as (_ & _ & A & _).
  destruct (A eq_refl) as (_ & _ & B).
  exact (B H).
Defined.

(** * Further properties of the code *)

(** ** The order tools *)

Lemma defined_false (v : JsValue) : Js.defined v = false -> v = JUndefined.
Proof. destruct v; simpl; congruence. Qed.

(** Evaluate the writes to a request body whose keys are known. *)
Ltac write_body :=
  repeat match goal with
         | |- context [Obj.set ?k ?v ?o] =>
             let x := eval vm_compute in (Obj.set k v o) in
             change (Obj.set k v o) with x
         end.

Section Orders.

Variable env : Env.
Variable remote : Remote.

(** X1. [modify_order] with an order id starts exactly one gateway
    request, a POST to [/Order/modify], whose body holds the order id
    and, of quantity, price and stop price, exactly those that are not
    [undefined], in that order: a value of 0 or [null] is forwarded, not
    dropped.  The tool returns the answer as [order] in a success
    result, or an error result quoting the gateway's error; it never
    throws. *)
Theorem modify_order_forwards_what_is_given
    (request : ToolRequest) (orderId quantity price stopPrice : JsValue)
    (w : World) :
  Js.get (arguments request) "orderId" = Ok orderId ->
  Js.get (arguments request) "quantity" = Ok quantity ->
  Js.get (arguments request) "price" = Ok price ->
  Js.get (arguments request) "stopPrice" = Ok stopPrice ->
  Js.truthy orderId = true ->
  let body :=
    JObj (("orderId", orderId) :: given "quantity" quantity
            ++ given "price" price ++ given "stopPrice" stopPrice) in
  handleModifyOrder env remote request w
  = wrapped "order" "Failed to modify order: "
      (topstepxRequest env remote POST "/Order/modify" body w).
Proof.
  intros Ho Hq Hp Hs Ht body. subst body.
  unfold handleModifyOrder, wrapped, given. run.
  rewrite Ho, Hq, Hp, Hs, Ht. reduce.
  destruct (Js.defined quantity), (Js.defined price),
    (Js.defined stopPrice); write_body; cbn [app];
    match goal with
    | |- context [topstepxRequest ?e ?r ?m ?p ?d ?w] =>
        destruct (topstepxRequest e r m p d w) as [[response|e'] w']
    end; reflexivity.
Qed.


(** X3. [search_contracts] with a search text makes the one gateway
    request for [/Contract/search] and nothing else.  When the gateway
    hands back an array, the result carries its first [limit] entries
    (10 when no limit is given; a limit of 0 is taken as given and
    yields none) and, as [count], the number of all entries handed
    back, not of those returned.  When it hands back a value that is
    neither an array nor a string, the tool returns an error result
    quoting a [TypeError]; when the gateway throws, an error result
    quoting that error. *)
Theorem search_contracts_counts_all_matches
    (request : ToolRequest) (searchText limit : JsValue) (w : World) :
  Js.get (arguments request) "searchText" = Ok searchText ->
  Js.get (arguments request) "limit" = Ok limit ->
  Js.truthy searchText = true ->
  let g := topstepxRequest env remote POST "/Contract/search"
             (contractSearch searchText) w in
  let r := handleSearchContracts env remote request w in
  snd r = snd g
  /\ (forall l n,
        fst g = Ok (JArr l) -> Js.default limit (JNum 10) = JNum n ->
        0 <= n ->
        fst r = Ok (createToolResult
                      (JObj [("contracts", JArr (firstn (Z.to_nat n) l));
                             ("count", JNum (Z.of_nat (length l)))])))
  /\ (forall v,
        fst g = Ok v ->
        match v with JArr _ | JStr _ => False | _ => True end ->
        fst r = Ok (createErrorResult
                      [Lit "Failed to search contracts: "; Thrown TypeErr]))
  /\ (forall e,
        fst g = Throw e ->
        fst r = Ok (createErrorResult
                      [Lit "Failed to search contracts: "; Thrown e])).
Proof.
  intros Hs Hl Ht g r. subst r. unfold handleSearchContracts. run.
  rewrite Hs, Hl, Ht. reduce. fold g.
  destruct g as [[v|e] wg]; simpl.
  - split; [|split; [|split]].
    + destruct (Js.slice0 v _); [|reflexivity].
      destruct (Js.get v "length"); reflexivity.
    + intros l n E Hn Hpos. injection E as ->. rewrite Hn. simpl.
      assert ((n <? 0) = false) as -> by (apply Z.ltb_ge; exact Hpos).
      destruct (Nat.le_gt_cases (Z.to_nat n) (length l)) as [Hle|Hgt].
      * rewrite Nat.min_l by exact Hle. reflexivity.
      * rewrite Nat.min_r by lia.
        rewrite firstn_all, (firstn_all2 l) by lia. reflexivity.
    + intros v' E Hv. injection E as ->.
      destruct v'; try contradiction; reflexivity.
    + intros e E. discriminate E.
  - split; [reflexivity|]. split; [|split].
    + intros l n E. discriminate E.
    + intros v E. discriminate E.
    + intros e' E. injection E as ->. reflexivity.
Qed.

End Orders.

(** ** The tools that answer from the caches *)

Lemma unchanged_refl (w : World) : unchanged w w.
Proof. reflexivity. Qed.

Lemma unchanged_trans (a b c : World) :
  unchanged a b -> unchanged b c -> unchanged a c.
Proof. unfold unchanged. congruence. Qed.

(** Walk through a computation that only reads. *)
Ltac reads_only :=
  repeat first
    [ apply respects_ret; exact unchanged_refl
    | apply respects_throw; exact unchanged_refl
    | apply respects_lift; exact unchanged_refl
    | apply respects_gets; exact unchanged_refl
    | apply respects_targetAccount;
        [exact unchanged_refl | exact unchanged_trans]
    | apply respects_bind; [exact unchanged_trans | | intro]
    | apply respects_try_catch; [exact unchanged_trans | | intro]
    | progress cbv zeta
    | match goal with
      | |- respects _ (if ?b then _ else _) => destruct b
      | |- respects _ (match ?x with _ => _ end) => destruct x
      end ].

Lemma callTool_returns (env : Env) (remote : Remote)
    (toISOString : Z -> string) (request : ToolRequest) (w : World) :
  exists res w', callTool env remote toISOString request w = (Ok res, w').
Proof.
  unfold callTool.
  apply (try_catch_returns _
           (fun error => {| content := PlainText [Lit "Error: "; Message error];
                            isError := true |})).
Qed.

Section Local.

Variable env : Env.
Variable remote : Remote.
Variable toISOString : Z -> string.

(** X4. The five tools that answer from the caches ([get_accounts],
    [get_common_contracts], [list_positions], [list_orders] and
    [get_account_summary]) return a result and leave everything as it
    was, whatever their arguments: no cache or session variable changes,
    no gateway request is started and no HTTP call is sent. *)
Theorem local_tools_change_nothing (request : ToolRequest) (w : World) :
  In (name request) local_tools ->
  exists res, callTool env remote toISOString request w = (Ok res, w).
Proof.
  intros H.
  assert (Hw : respects unchanged (callTool env remote toISOString request)).
  { destruct request as [n a]. simpl in H.
    decompose [or] H; try contradiction; subst n;
      unfold callTool; cbn [name]; cbv zeta beta;
      simpl (_ =? _)%string; cbv iota;
      unfold handleGetAccounts, handleGetCommonContracts,
        handleListPositions, handleListOrders, handleGetAccountSummary,
        getPositions, getOrders;
      reads_only. }
  destruct (callTool_returns env remote toISOString request w)
    as (res & w' & E).
  specialize (Hw w). rewrite E in Hw. simpl in Hw. unfold unchanged in Hw.
  subst w'. exists res. exact E.
Qed.

(** X5. An invocation that carries no arguments object ([arguments] is
    [undefined] or [null]) makes [list_positions], [list_orders] and
    [get_account_summary] return an error result quoting a [TypeError],
    although none of their arguments is required; [get_accounts] and
    [get_common_contracts], which read no argument, answer as usual.
    Nothing is changed or sent in either case. *)
Theorem tools_need_an_arguments_object (args : JsValue) (w : World) :
  args = JUndefined \/ args = JNull ->
  let call tool :=
    callTool env remote toISOString {| name := tool; arguments := args |} w in
  call "list_positions"
  = (Ok (createErrorResult
           [Lit "Failed to list positions: "; Thrown TypeErr]), w)
  /\ call "list_orders"
     = (Ok (createErrorResult
              [Lit "Failed to list orders: "; Thrown TypeErr]), w)
  /\ call "get_account_summary"
     = (Ok (createErrorResult
              [Lit "Failed to get account summary: "; Thrown TypeErr]), w)
  /\ call "get_accounts"
     = (Ok (createToolResult
              (JObj [("accounts", JArr (Obj.values (accountsCache w)));
                     ("count",
                      JNum (Z.of_nat
                              (length (Obj.values (accountsCache w)))))])),
        w)
  /\ call "get_common_contracts"
     = (Ok (createToolResult
              (JObj [("contracts", JArr (Obj.values (contractsCache w)));
                     ("symbols",
                      JArr (map JStr (Obj.keys (contractsCache w))))])),
        w).
Proof.
  intros [-> | ->]; repeat split; reflexivity.
Qed.


End Local.

(** ** The dispatcher *)

Lemma yields_ret {A : Type} (P : A -> Prop) (a : A) : P a -> yields P (ret a).
Proof. intros H w. exact H. Qed.

Lemma yields_throw {A : Type} (P : A -> Prop) (e : JsError) :
  yields P (@throw A e).
Proof. intros w. exact I. Qed.

Lemma yields_bind {A B : Type} (P : B -> Prop) (c : M A) (k : A -> M B) :
  (forall a, yields P (k a)) -> yields P (bind c k).
Proof.
  intros H w. unfold bind. destruct (c w) as [[a|e] w']; [apply H | exact I].
Qed.

Lemma yields_try_catch {A : Type} (P : A -> Prop) (c : M A)
    (h : JsError -> M A) :
  yields P c -> (forall e, yields P (h e)) -> yields P (try_catch c h).
Proof.
  intros Hc Hh w. unfold try_catch. specialize (Hc w).
  destruct (c w) as [[a|e] w']; [exact Hc | apply Hh].
Qed.

(** A handler that catches every error leaves nothing to catch. *)
Lemma yields_caught {A : Type} (P : A -> Prop) (body : M A)
    (h1 : JsError -> A) (h2 : JsError -> M A) :
  yields P (try_catch body (fun e => ret (h1 e))) ->
  yields P (try_catch (try_catch body (fun e => ret (h1 e))) h2).
Proof.
  intros H w. specialize (H w). revert H. unfold try_catch, ret.
  destruct (body w) as [[a|e] w']; simpl; auto.
Qed.

(** Walk through a handler down to the results it builds. *)
Ltac results :=
  repeat first
    [ apply yields_ret; exact I
    | apply yields_throw
    | apply yields_bind; intro
    | apply yields_try_catch; [| intro]
    | progress cbv zeta
    | match goal with
      | |- yields _ (if ?b then _ else _) => destruct b
      | |- yields _ (match ?x with _ => _ end) => destruct x
      end ].

Section Dispatcher.

Variable env : Env.
Variable remote : Remote.
Variable toISOString : Z -> string.

(** X7. The dispatcher never throws.  For each of the thirteen listed
    tool names it returns what the tool's handler built with
    [createToolResult] or [createErrorResult]: the handlers catch
    every error themselves, so the dispatcher's own [Error: ...] text
    is never produced.  For any other name it returns the
    [Unknown tool: <name>] error and leaves everything as it was. *)
Theorem dispatch_covers_the_listed_tools (request : ToolRequest) (w : World) :
  exists res w',
    callTool env remote toISOString request w = (Ok res, w')
    /\ (In (name request) tool_names -> json_result res)
    /\ (~ In (name request) tool_names ->
        res = {| content := PlainText [Lit "Unknown tool: ";
                                       Lit (name request)];
                 isError := true |}
        /\ w' = w).
Proof.
  destruct (callTool_returns env remote toISOString request w)
    as (res & w' & E).
  exists res, w'. split; [exact E|]. split.
  - intros H.
    assert (Hy : yields json_result (callTool env remote toISOString request)).
    { destruct request as [n a]. simpl in H. unfold tool_names in H.
      simpl in H.
      decompose [or] H; try contradiction; subst n;
        unfold callTool; cbn [name]; cbv zeta beta;
        simpl (_ =? _)%string; cbv iota;
        unfold handleGetAccounts, handleGetContractDetails,
          handleSearchContracts, handleGetCommonContracts,
          handleListPositions, handlePlaceOrder, placeOrder,
          handleClosePosition, handleModifyOrder, handleCancelOrder,
          handleListOrders, handleGetAccountSummary, handleGetMarketData,
          handleGetBars;
        apply yields_caught; results. }
    specialize (Hy w). rewrite E in Hy. exact Hy.
  - intros H. revert E. unfold callTool, try_catch, ret. cbv zeta.
    repeat match goal with
           | |- context [(?n =? ?s)%string] =>
               destruct (String.eqb_spec n s) as [Eq|_];
               [exfalso; apply H; rewrite Eq; simpl; tauto|]
           end.
    intros E. injection E as <- <-. split; reflexivity.
Qed.

End Dispatcher.

(** ** The session *)

Lemma granted_truthy (o : HttpOutcome) (token : JsValue) :
  granted o = Some token -> Js.truthy token = true.
Proof.
  destruct o as [s b|]; simpl; [|discriminate].
  destruct (success_status s); [|discriminate].
  destruct (Js.get b "success") as [x|]; [|discriminate].
  destruct (Js.truthy x); [|discriminate].
  destruct (Js.get b "token") as [t|]; [|discriminate].
  destruct (Js.truthy t) eqn:E; [|discriminate].
  intros H. injection H as <-. exact E.
Qed.

(** The three ways a login can go. *)
Lemma authenticate_cases (env : Env) (remote : Remote) (w : World) :
  (credentials_present env = false
   /\ authenticate env remote w = (Throw (Err missing_credentials), w))
  \/ (credentials_present env = true
      /\ exists e, authenticate env remote w
                   = (Throw e, arrive remote (loginCall env) w))
  \/ (credentials_present env = true
      /\ exists token,
           Js.truthy token = true
           /\ authenticate env remote w
              = (Ok tt, logged_in (getApiUrl env) token
                          (arrive remote (loginCall env) w))).
Proof.
  destruct (credentials_present env) eqn:Hc.
  - destruct (granted (next_reply remote (loginCall env) w)) as [t|] eqn:G.
    + right. right. split; [reflexivity|]. exists t. split.
      * exact (granted_truthy _ _ G).
      * exact (authenticate_granted env remote w t Hc G).
    + right. left. split; [reflexivity|].
      exact (authenticate_refused env remote w Hc G).
  - left. split; [reflexivity|]. exact (authenticate_missing env remote w Hc).
Qed.

Lemma kept_refl (I : World -> Prop) (w : World) : kept I w w.
Proof. intros H. exact H. Qed.

Lemma kept_trans (I : World -> Prop) (a b c : World) :
  kept I a b -> kept I b c -> kept I a c.
Proof. unfold kept. auto. Qed.

Section Login.

Variable env : Env.
Variable remote : Remote.


(** X9. A session obtained by a login is reused without any call for
    exactly one day: while no more than 86,400,000 ms have passed since
    the login reply arrived, validating the session does nothing at
    all; one millisecond later it logs in again. *)
Theorem session_is_reused_for_a_day (w w1 : World) (dt : N) :
  authenticate env remote w = (Ok tt, w1) ->
  let later := elapse dt w1 in
  (Z.of_N dt <= 86400000 ->
   ensureAuthenticated env remote later = (Ok tt, later))
  /\ (86400000 < Z.of_N dt ->
      ensureAuthenticated env remote later = authenticate env remote later).
Proof.
  intros E later.
  destruct (authenticate_cases env remote w)
    as [[_ E'] | [[_ [e E']] | [_ [t [Ht E']]]]]; rewrite E' in E;
    try discriminate E.
  injection E as <-. subst later.
  unfold ensureAuthenticated, needs_login, expired. simpl.
  rewrite Ht. simpl. unfold day_ms. split; intros H.
  - assert ((clock w + Z.of_N (elapsed (remote (length (sent w))
                                          (loginCall env)))
             + 24 * 60 * 60 * 1000
             <? clock w + Z.of_N (elapsed (remote (length (sent w))
                                             (loginCall env)))
                + Z.of_N dt) = false) as -> by (apply Z.ltb_ge; lia).
    reflexivity.
  - assert ((clock w + Z.of_N (elapsed (remote (length (sent w))
                                          (loginCall env)))
             + 24 * 60 * 60 * 1000
             <? clock w + Z.of_N (elapsed (remote (length (sent w))
                                             (loginCall env)))
                + Z.of_N dt) = true) as -> by (apply Z.ltb_lt; lia).
    reflexivity.
Qed.

End Login.

(** ** The gateway, from its parts *)

Section GatewayFrame.

Variable R : World -> World -> Prop.
Hypothesis R_refl : forall w, R w w.
Hypothesis R_trans : forall a b c, R a b -> R b c -> R a c.

Variable env : Env.
Variable remote : Remote.
Variables (m : Method) (p : string) (d : JsValue).

Hypothesis R_noted : forall w, R w (noted m p d w).
Hypothesis R_authenticate : respects R (authenticate env remote).
Hypothesis R_clear : forall w, R w (set_authToken JNull w).
Hypothesis R_send : respects R (send remote m p d).

Lemma gateway_respects : respects R (topstepxRequest env remote m p d).
Proof.
  unfold topstepxRequest, note_request.
  apply respects_bind; [exact R_trans | |intros _].
  { apply respects_modify. exact R_noted. }
  apply respects_bind; [exact R_trans | |intros _].
  { intros w. unfold ensureAuthenticated.
    destruct (needs_login w); [apply R_authenticate | apply R_refl]. }
  apply respects_bind; [exact R_trans | apply respects_gets, R_refl |].
  intros [i|]; [|apply respects_throw, R_refl].
  apply respects_try_catch; [exact R_trans | |intros e].
  - apply respects_bind; [exact R_trans | exact R_send |].
    intros r. apply respects_lift, R_refl.
  - destruct (status_is_401 e); [|apply respects_throw, R_refl].
    apply respects_bind; [exact R_trans | |intros _].
    { apply respects_modify. exact R_clear. }
    apply respects_bind; [exact R_trans | exact R_authenticate |intros _].
    apply respects_bind; [exact R_trans | exact R_send |].
    intros r. apply respects_lift, R_refl.
Qed.

End GatewayFrame.

(** ** The tools and the refresh, from the gateway *)

Lemma respects_bind_value {A B : Type} (R : World -> World -> Prop)
    (P : A -> Prop) (c : M A) (k : A -> M B) :
  (forall a b c, R a b -> R b c -> R a c) ->
  respects R c -> yields P c -> (forall a, P a -> respects R (k a)) ->
  respects R (bind c k).
Proof.
  intros Rt Hc Hy Hk w. unfold bind.
  specialize (Hc w). specialize (Hy w).
  destruct (c w) as [[a|e] w']; simpl in *; [|exact Hc].
  eapply Rt; [exact Hc | apply (Hk a Hy)].
Qed.

Section Through.

Variable R : World -> World -> Prop.
Hypothesis R_refl : forall w, R w w.
Hypothesis R_trans : forall a b c, R a b -> R b c -> R a c.

Variable env : Env.
Variable remote : Remote.
Variable toISOString : Z -> string.

Hypothesis R_request :
  forall p d, In p gateway_paths ->
              respects R (topstepxRequest env remote POST p d).
Hypothesis R_contracts : forall o w, R w (set_contractsCache o w).
Hypothesis R_ids : forall o w, R w (set_symbolToContractIdMap o w).

Lemma through_search (s : JsValue) :
  respects R
    (topstepxRequest env remote POST "/Contract/search" (contractSearch s)).
Proof. apply R_request. simpl. tauto. Qed.

Lemma through_stored (k : string) (contracts : JsValue) :
  respects R
    (some <- nonempty contracts ;;
     if some then store_contract k contracts ;; ret tt else ret tt).
Proof.
  apply respects_bind; [assumption | apply respects_nonempty; assumption|].
  intros [|]; [|apply respects_ret; assumption].
  apply respects_bind;
    [assumption | apply respects_store_contract; assumption|].
  intros c. apply respects_ret; assumption.
Qed.

Lemma through_lookup (symbol : JsValue) :
  respects R (getContractBySymbol env remote symbol).
Proof.
  unfold getContractBySymbol.
  apply respects_bind; [assumption | apply respects_gets; assumption|].
  intros cached.
  destruct (Js.truthy cached); [apply respects_ret; assumption|].
  apply respects_bind; [assumption | |].
  - apply respects_try_catch;
      [assumption | | intros e; apply respects_ret; assumption].
    apply respects_bind; [assumption | apply through_search|].
    intros contracts.
    apply respects_bind; [assumption | apply respects_nonempty; assumption|].
    intros [|]; [|apply respects_ret; assumption].
    apply respects_bind;
      [assumption | apply respects_store_contract; assumption|].
    intros c. apply respects_ret; assumption.
  - intros [c|]; apply respects_ret; assumption.
Qed.

(** Walk through a handler: sequences, [try], branches, the lookup and
    the gateway requests. *)
Ltac follow :=
  repeat first
    [ apply respects_ret; assumption
    | apply respects_throw; assumption
    | apply respects_lift; assumption
    | apply respects_gets; assumption
    | apply R_request; simpl; tauto
    | apply through_lookup
    | apply respects_targetAccount; assumption
    | apply respects_nonempty; assumption
    | apply respects_bind; [assumption | | intro]
    | apply respects_try_catch; [assumption | | intro]
    | progress cbv zeta
    | match goal with
      | |- respects _ (if ?b then _ else _) => destruct b
      | |- respects _ (match ?x with _ => _ end) => destruct x
      end ].

(** The positions looked through are always the empty array, so the
    handler never comes to its gateway request. *)
Lemma through_handleClosePosition (request : ToolRequest) :
  respects R (handleClosePosition env remote request).
Proof.
  unfold handleClosePosition.
  apply respects_try_catch; [assumption | | intro; follow].
  cbv zeta.
  apply respects_bind; [assumption | follow | intros symbol].
  apply respects_bind; [assumption | follow | intros accountId].
  apply respects_bind; [assumption | follow | intros quantity].
  destruct (negb (Js.truthy symbol)); [follow|].
  apply respects_bind; [assumption | follow | intros contract].
  destruct (negb (Js.truthy contract)); [follow|].
  apply (respects_bind_value R (fun a => a = JArr [])); [assumption | | |].
  - unfold getPositions. follow.
  - intros w. reflexivity.
  - intros a ->.
    apply (respects_bind_value R (fun a => a = JUndefined));
      [assumption | follow | |].
    + intros w. reflexivity.
    + intros a ->. simpl. follow.
Qed.

Lemma through_callTool (request : ToolRequest) :
  respects R (callTool env remote toISOString request).
Proof.
  unfold callTool. cbv zeta.
  apply respects_try_catch; [assumption | | intro; follow].
  repeat match goal with
         | |- respects _ (if ?b then _ else _) => destruct b
         end;
    try apply through_handleClosePosition;
    unfold handleGetAccounts, handleGetContractDetails,
      handleSearchContracts, handleGetCommonContracts, handleListPositions,
      handlePlaceOrder, placeOrder, handleModifyOrder, handleCancelOrder,
      handleListOrders, handleGetAccountSummary, handleGetMarketData,
      handleGetBars, getPositions, getOrders;
    follow.
Qed.

Lemma through_loadContracts : respects R (loadContracts env remote).
Proof.
  unfold loadContracts.
  apply respects_try_catch; [assumption | | intro; follow].
  apply respects_bind;
    [assumption | apply respects_modify; intros w; apply R_contracts|].
  intros _.
  apply respects_bind;
    [assumption | apply respects_modify; intros w; apply R_ids|].
  intros _.
  apply respects_for_each; [assumption | assumption |].
  intros symbol. unfold loadContract.
  apply respects_try_catch; [assumption | | intro; follow].
  apply respects_bind; [assumption | apply through_search|].
  intros contracts. apply through_stored.
Qed.

Hypothesis R_accounts : forall o w, R w (set_accountsCache o w).

(** What [loadAccounts] does with the answer to its request. *)
Lemma through_filed (response : JsValue) :
  respects R
    (modify (fun w =>
       set_accountsCache (clear_accounts (accountsCache w)) w) ;;
     accounts <- (if Js.truthy response
                  then lift (Js.get response "accounts")
                  else ret response) ;;
     if Js.truthy accounts then forEach accounts store_account
     else ret tt).
Proof.
  unfold forEach, store_account.
  apply respects_bind;
    [assumption | apply respects_modify; intro; apply R_accounts | intro].
  apply respects_bind; [assumption | follow | intro].
  destruct (Js.truthy _); [|follow].
  match goal with
  | |- respects _ (match ?x with _ => _ end) => destruct x
  end; follow.
  apply respects_for_each; [assumption | assumption | intro].
  apply respects_bind; [assumption | follow | intro].
  apply respects_modify. intro. apply R_accounts.
Qed.

Lemma through_loadAccounts : respects R (loadAccounts env remote).
Proof.
  unfold loadAccounts.
  apply respects_try_catch; [assumption | | intro; follow].
  apply respects_bind; [assumption | follow | intro].
  apply through_filed.
Qed.

Lemma through_initializeData : respects R (initializeData env remote).
Proof.
  unfold initializeData.
  apply respects_try_catch; [assumption | | intro; follow].
  apply respects_bind; [assumption | apply through_loadAccounts | intro].
  apply through_loadContracts.
Qed.

End Through.

(** ** What holds in every world a process goes through *)

Lemma axios_request_world (remote : Remote) (c : HttpCall) (w : World) :
  snd (axios_request remote c w) = arrive remote c w.
Proof.
  unfold axios_request.
  destruct (outcome (remote (length (sent w)) c)) as [s b|];
    [destruct ((200 <=? s) && (s <? 300))|]; reflexivity.
Qed.

Section Reach.

Variable env : Env.
Variable remote : Remote.
Variable toISOString : Z -> string.


Lemma silent_request (m : Method) (p : string) (d : JsValue) :
  credentials_present env = false ->
  respects (kept silent) (topstepxRequest env remote m p d).
Proof.
  intros Hc w [Hs Ht]. rewrite topstepxRequest_unfold.
  unfold ensureAuthenticated, needs_login. simpl authToken. rewrite Ht.
  simpl. rewrite (authenticate_missing env remote _ Hc). simpl.
  split; assumption.
Qed.

(** X11. A process whose environment lacks a user name or an API key
    never sends anything to the platform, whatever it is asked to do:
    in every world it goes through, the record of HTTP calls is empty
    (not even a login call is attempted). *)
Theorem nothing_is_sent_without_credentials (w : World) :
  credentials_present env = false ->
  reachable env remote toISOString w -> sent w = [].
Proof.
  intros Hc Hr. cut (silent w); [intros [H _]; exact H|].
  induction Hr as [t0 | dt w _ IH | w _ IH | w _ IH | request w _ IH].
  - split; reflexivity.
  - exact IH.
  - rewrite (authenticate_missing env remote w Hc). exact IH.
  - refine (through_initializeData (kept silent) (kept_refl _) (kept_trans _)
              env remote _ _ _ _ w IH).
    + intros p d _. apply silent_request, Hc.
    + intros o w0 H. exact H.
    + intros o w0 H. exact H.
    + intros o w0 H. exact H.
  - refine (through_callTool (kept silent) (kept_refl _) (kept_trans _)
              env remote toISOString _ _ _ request w IH).
    + intros p d _. apply silent_request, Hc.
    + intros o w0 H. exact H.
    + intros o w0 H. exact H.
Qed.

Lemma disciplined_arrive (c : HttpCall) (w : World) :
  known_call env c -> kept (disciplined env) w (arrive remote c w).
Proof.
  intros Hk (Hi & Hs & Hr). split; [exact Hi|]. split; [|exact Hr].
  simpl. apply Forall_app. split; [exact Hs|].
  constructor; [exact Hk | constructor].
Qed.

Lemma disciplined_authenticate :
  respects (kept (disciplined env)) (authenticate env remote).
Proof.
  intros w H.
  destruct (authenticate_cases env remote w)
    as [[_ E] | [[_ [e E]] | [_ [t [Ht E]]]]]; rewrite E; simpl.
  - exact H.
  - apply disciplined_arrive;
      [left; apply loginCall_written_out | exact H].
  - destruct (disciplined_arrive (loginCall env) w
                (or_introl (loginCall_written_out env)) H)
      as (_ & Hs & Hr).
    split; [|split; [exact Hs | exact Hr]].
    intros i Hi. simpl in Hi. injection Hi as <-.
    exists t. split; [exact Ht | reflexivity].
Qed.

Lemma disciplined_send (p : string) (d : JsValue) :
  In p gateway_paths -> respects (kept (disciplined env)) (send remote POST p d).
Proof.
  intros Hp w H. unfold send, bind, gets, throw.
  destruct (axiosInstance w) as [i|] eqn:Ei; [|exact H].
  rewrite axios_request_world. apply disciplined_arrive; [|exact H].
  destruct H as (Hi & _). destruct (Hi i Ei) as (t & Ht & ->).
  right. exists t, p, d. repeat split; assumption.
Qed.

Lemma disciplined_request (p : string) (d : JsValue) :
  In p gateway_paths ->
  respects (kept (disciplined env)) (topstepxRequest env remote POST p d).
Proof.
  intros Hp.
  apply (gateway_respects (kept (disciplined env)) (kept_refl _)
           (kept_trans _) env remote POST p d).
  - intros w (Hi & Hs & Hr). split; [exact Hi|]. split; [exact Hs|].
    simpl. apply Forall_app. split; [exact Hr|].
    constructor; [|constructor]. split; [reflexivity | exact Hp].
  - exact disciplined_authenticate.
  - intros w H. exact H.
  - apply disciplined_send, Hp.
Qed.

(** X12. Every HTTP call a process ever sends is either the login
    call, which is a POST to [/Auth/loginKey] that carries the user
    name and the API key and no bearer token, or a POST to one of six
    paths ([/Account/search], [/Contract/search], [/Order/place],
    [/Order/modify], [/Order/cancel], [/MarketData/retrieve-bars]) sent
    through a session built around a truthy token, its bearer token;
    every gateway request is a POST for one of these paths.  In
    particular no run calls [/Position/close-partial], nothing is ever
    sent with GET, PUT or DELETE, and every call but the login carries
    a bearer token. *)
Theorem all_traffic_is_known (w : World) :
  reachable env remote toISOString w ->
  Forall (known_call env) (sent w)
  /\ Forall known_request (requested w)
  /\ Forall (fun c => method c = POST
                      /\ url c <> "/Position/close-partial"
                      /\ (bearer (via c) = None -> c = login_request env))
       (sent w).
Proof.
  intros Hr.
  cut (disciplined env w).
  { intros (_ & Hs & Hq). split; [exact Hs | split; [exact Hq|]].
    apply (Forall_impl _ (P := known_call env)); [|exact Hs].
    intros c [-> | (t & p & d & _ & Hp & ->)].
    - split; [reflexivity | split; [discriminate | reflexivity]].
    - split; [reflexivity | split; [|discriminate]].
      simpl. intros ->. simpl in Hp.
      repeat (destruct Hp as [Hp|Hp]; [discriminate Hp|]). exact Hp. }
  induction Hr as [t0 | dt w _ IH | w _ IH | w _ IH | request w _ IH].
  - split; [intros i H; discriminate H|]. split; constructor.
  - exact IH.
  - exact (disciplined_authenticate w IH).
  - refine (through_initializeData (kept (disciplined env)) (kept_refl _)
              (kept_trans _) env remote _ _ _ _ w IH).
    + intros p d Hp. apply disciplined_request, Hp.
    + intros o w0 H. exact H.
    + intros o w0 H. exact H.
    + intros o w0 H. exact H.
  - refine (through_callTool (kept (disciplined env)) (kept_refl _)
              (kept_trans _) env remote toISOString _ _ _ request w IH).
    + intros p d Hp. apply disciplined_request, Hp.
    + intros o w0 H. exact H.
    + intros o w0 H. exact H.
Qed.

End Reach.

(** ** The refresh, request by request *)

Lemma clear_all_empty (o : Obj.t) : clear_all o = [].
Proof.
  unfold clear_all, Obj.keys.
  induction o as [|[k v] o IH]; [reflexivity|].
  simpl. rewrite String.eqb_refl. exact IH.
Qed.



Section Refreshing.

Variable env : Env.
Variable remote : Remote.

Lemma rest_same_requests (k : string) (contracts : JsValue) :
  respects same_requests
    (some <- nonempty contracts ;;
     if some then store_contract k contracts ;; ret tt else ret tt).
Proof.
  apply through_stored;
    first [exact same_requests_refl | exact same_requests_trans
          | intros; reflexivity].
Qed.

Lemma loadContract_requested (symbol : string) (w : World) :
  exists w',
    loadContract env remote symbol w = (Ok tt, w')
    /\ requested w' = requested w ++ [searchRequest (JStr symbol)].
Proof.
  unfold loadContract, try_catch, searchRequest. step.
  pose proof (topstepxRequest_requested env remote POST "/Contract/search"
                (contractSearch (JStr symbol)) w) as Hg.
  destruct (topstepxRequest env remote POST "/Contract/search"
              (contractSearch (JStr symbol)) w) as [[contracts|e] wg];
    simpl in Hg; [|eexists; split; [reflexivity | exact Hg]].
  pose proof (rest_same_requests symbol contracts wg) as Hr.
  unfold same_requests in Hr.
  match goal with
  | |- context [bind ?c ?k wg] => destruct (bind c k wg) as [[[]|e] w']
  end; simpl in *; eexists; (split; [reflexivity | congruence]).
Qed.

Lemma for_each_loadContract (symbols : list string) (w : World) :
  exists w',
    for_each symbols (loadContract env remote) w = (Ok tt, w')
    /\ requested w'
       = requested w
         ++ map (fun symbol => searchRequest (JStr symbol)) symbols.
Proof.
  revert w. induction symbols as [|s rest IH]; intros w.
  - exists w. simpl. rewrite app_nil_r. split; reflexivity.
  - simpl. unfold bind.
    destruct (loadContract_requested s w) as (w1 & -> & Hr).
    destruct (IH w1) as (w2 & -> & Hr'). exists w2. split; [reflexivity|].
    rewrite Hr', Hr, <- app_assoc. reflexivity.
Qed.

Lemma loadContracts_requested (w : World) :
  requested (snd (loadContracts env remote w))
  = requested w ++ map (fun symbol => searchRequest (JStr symbol))
                     COMMON_SYMBOLS.
Proof.
  unfold loadContracts, try_catch. step. unfold modify at 1.
  cbv beta iota zeta. step. unfold modify at 1. cbv beta iota zeta.
  match goal with
  | |- context [for_each _ _ ?w0] =>
      destruct (for_each_loadContract COMMON_SYMBOLS w0) as (w' & -> & Hr)
  end. exact Hr.
Qed.

Lemma loadAccounts_requested (w : World) :
  requested (snd (loadAccounts env remote w))
  = requested w ++ [gateway_request POST "/Account/search" accountSearch].
Proof.
  unfold loadAccounts, try_catch. step.
  pose proof (topstepxRequest_requested env remote POST "/Account/search"
                accountSearch w) as Hg.
  destruct (topstepxRequest env remote POST "/Account/search"
              accountSearch w) as [[response|e] wg];
    simpl in Hg; [|exact Hg].
  pose proof (through_filed same_requests same_requests_refl
                same_requests_trans (fun o w => eq_refl) response wg) as Hr.
  unfold same_requests in Hr.
  match goal with
  | |- context [bind ?c ?k wg] => destruct (bind c k wg) as [[[]|e] w']
  end; simpl in *; congruence.
Qed.

(** A refresh is the account load followed by the contract load, and
    it returns. *)
Lemma initializeData_runs (w : World) :
  initializeData env remote w
  = (Ok tt, snd (loadContracts env remote (snd (loadAccounts env remote w)))).
Proof.
  unfold initializeData, try_catch. step.
  pose proof (loadAccounts_returns env remote w) as Ha.
  destruct (loadAccounts env remote w) as [[[]|e] w1]; simpl in Ha;
    [|discriminate Ha].
  pose proof (loadContracts_returns env remote w1) as Hc. simpl.
  destruct (loadContracts env remote w1) as [[[]|e] w2]; simpl in Hc;
    [reflexivity | discriminate Hc].
Qed.

(** X13. A refresh never throws and starts exactly nine gateway
    requests, always in the same order: the account search, then one
    contract search for each of the eight common symbols.  A request
    that fails does not stop the ones after it.  The periodic refresh
    does exactly what a refresh does. *)
Theorem refresh_starts_nine_requests (w : World) :
  let r := initializeData env remote w in
  fst r = Ok tt
  /\ requested (snd r) = requested w ++ refresh_requests
  /\ length refresh_requests = 9%nat
  /\ refreshTick env remote w = r.
Proof.
  cbv zeta. rewrite initializeData_runs. simpl fst. simpl snd.
  split; [reflexivity|]. split; [|split; [reflexivity|]].
  - rewrite loadContracts_requested, loadAccounts_requested, <- app_assoc.
    reflexivity.
  - unfold refreshTick, try_catch. rewrite initializeData_runs. reflexivity.
Qed.

Lemma initialize_runs (w : World) :
  initialize env remote w
  = match authenticate env remote w with
    | (Ok _, w1) => initializeData env remote w1
    | (Throw e, w1) => (Throw e, w1)
    end.
Proof.
  unfold initialize, try_catch, throw, bind.
  destruct (authenticate env remote w) as [[[]|e] w1]; [|reflexivity].
  rewrite initializeData_runs. reflexivity.
Qed.

(** X14. Start-up fails exactly when the login fails, and with the
    login's error: a failure while the data is loaded never fails the
    start-up.  After a failed login no gateway request is started;
    after a successful one the nine requests of a refresh are. *)
Theorem startup_fails_only_when_login_fails (w : World) :
  let r := initialize env remote w in
  let login := authenticate env remote w in
  fst r = fst login
  /\ requested (snd r)
     = requested w ++ match fst login with
                      | Ok _ => refresh_requests
                      | Throw _ => []
                      end.
Proof.
  cbv zeta. rewrite initialize_runs.
  destruct (authenticate_cases env remote w)
    as [[_ E] | [[_ [e E]] | [_ [t [Ht E]]]]]; rewrite E; simpl.
  - rewrite app_nil_r. split; reflexivity.
  - rewrite app_nil_r. split; reflexivity.
  - rewrite initializeData_runs. simpl. split; [reflexivity|].
    rewrite loadContracts_requested, loadAccounts_requested, <- app_assoc.
    reflexivity.
Qed.







End Refreshing.

(** ** The logger *)

(** X16. Debug output cannot be switched on.  Whatever the environment
    holds, [debug] never writes its line: [LOG_LEVEL=DEBUG] selects the
    level 0, which is falsy, so the level falls back to INFO.  DEBUG,
    INFO and an absent or empty variable all make [info], [warn] and
    [error] write; WARN silences [info]; ERROR silences [info] and
    [warn]. *)
Theorem debug_output_cannot_be_enabled (env : Env) :
  debug_writes env = false
  /\ (env "LOG_LEVEL" = Some "DEBUG" -> LOG_LEVEL env = JNum 1)
  /\ (env "LOG_LEVEL" = None \/ env "LOG_LEVEL" = Some ""
      \/ env "LOG_LEVEL" = Some "DEBUG" \/ env "LOG_LEVEL" = Some "INFO" ->
      info_writes env = true /\ warn_writes env = true
      /\ error_writes env = true)
  /\ (env "LOG_LEVEL" = Some "WARN" ->
      info_writes env = false /\ warn_writes env = true
      /\ error_writes env = true)
  /\ (env "LOG_LEVEL" = Some "ERROR" ->
      info_writes env = false /\ warn_writes env = false
      /\ error_writes env = true).
Proof.
  unfold debug_writes, info_writes, warn_writes, error_writes, LOG_LEVEL.
  split; [|split; [|split; [|split]]].
  - destruct (env "LOG_LEVEL") as [v|]; [|reflexivity].
    destruct (Js.truthy (JStr v)); [|reflexivity].
    unfold level_named, LOG_LEVELS. cbn [Obj.has Obj.get Js.assoc].
    destruct (String.eqb_spec "DEBUG" v) as [<-|_]; [reflexivity|].
    destruct (String.eqb_spec "INFO" v) as [<-|_]; [reflexivity|].
    destruct (String.eqb_spec "WARN" v) as [<-|_]; [reflexivity|].
    destruct (String.eqb_spec "ERROR" v) as [<-|_]; [reflexivity|].
    cbn [orb]. destruct (existsb _ _); reflexivity.
  - intros ->. reflexivity.
  - intros [-> | [-> | [-> | ->]]]; repeat split.
  - intros ->. repeat split.
  - intros ->. repeat split.
Qed.

(** ** Resources *)

Lemma substring_all (s : string) : substring 0 (String.length s) s = s.
Proof. induction s as [|c s IH]; simpl; [reflexivity | rewrite IH; reflexivity]. Qed.

(** A text without a slash. *)
Lemma before_slash_type (t rest : string) :
  before_slash t = t ->
  before_slash (t ++ String "/" rest) = t
  /\ after_slash (t ++ String "/" rest) = Some rest.
Proof.
  induction t as [|c t IH]; simpl; [split; reflexivity|].
  destruct (Ascii.eqb c "/"); [discriminate|].
  intros H. injection H as H. destruct (IH H) as [-> ->].
  split; reflexivity.
Qed.

Lemma match_uri_with_id (t id : string) :
  before_slash t = t -> t <> "" -> has_line_terminator id = false ->
  match_uri ("topstepx://" ++ t ++ String "/" id) = Some (t, Some id).
Proof.
  intros Ht Hn Hl. unfold match_uri.
  assert (Hp : prefix "topstepx://" ("topstepx://" ++ t ++ String "/" id)
               = true).
  { simpl. destruct (t ++ String "/" id)%string; reflexivity. }
  rewrite Hp.
  assert (Hs : substring 11
                 (String.length ("topstepx://" ++ t ++ String "/" id) - 11)
                 ("topstepx://" ++ t ++ String "/" id)
               = (t ++ String "/" id)%string).
  { simpl. rewrite Nat.sub_0_r. apply substring_all. }
  rewrite Hs. cbv zeta.
  destruct (before_slash_type t id Ht) as [-> ->].
  destruct (String.eqb_spec t ""); [contradiction|].
  rewrite Hl. reflexivity.
Qed.

Lemma digits_have_no_line_terminator (d : Decimal.uint) :
  has_line_terminator (NilEmpty.string_of_uint d) = false.
Proof. induction d; simpl; auto. Qed.

Lemma number_has_no_line_terminator (n : Z) :
  has_line_terminator (Js.string_of_Z n) = false.
Proof.
  unfold Js.string_of_Z, NilZero.string_of_int, NilZero.string_of_uint.
  destruct (Z.to_int n) as [d|d]; destruct d; simpl; auto;
    apply digits_have_no_line_terminator.
Qed.

Lemma number_is_not_empty (n : Z) : Js.string_of_Z n <> "".
Proof.
  unfold Js.string_of_Z, NilZero.string_of_int, NilZero.string_of_uint.
  destruct (Z.to_int n) as [d|d]; destruct d; simpl; discriminate.
Qed.

Section Reading.

(** [Number(s)] for a text [s]. *)
Variable numberOf : string -> JsValue.


(** X18. An account that has been filed in the account cache can be
    read back under its resource URI: if its id is the number [n], then
    [topstepx://account/<n>] returns exactly that account, under the
    same URI, and changes nothing. *)
Theorem filed_account_is_readable (account : JsValue) (n : Z) (w : World) :
  Js.get account "id" = Ok (JNum n) ->
  Js.truthy account = true ->
  numberOf (Js.string_of_Z n) = JNum n ->
  let w' := snd (store_account account w) in
  let uri := ("topstepx://account/" ++ Js.string_of_Z n)%string in
  readResource numberOf uri w'
  = (Ok {| res_payload := account; res_uri := uri |}, w').
Proof.
  intros Hid Ht Hn w' uri. subst uri. unfold readResource.
  change (match_uri ("topstepx://account/" ++ Js.string_of_Z n))
    with (match_uri ("topstepx://" ++ "account"
                       ++ String "/" (Js.string_of_Z n))).
  rewrite (match_uri_with_id "account" (Js.string_of_Z n) eq_refl)
    by (try discriminate; apply number_has_no_line_terminator).
  change ("account" =? "account")%string with true. cbv iota zeta.
  destruct (String.eqb_spec (Js.string_of_Z n) "") as [E|_];
    [exfalso; exact (number_is_not_empty n E)|].
  cbn [negb]. cbv iota. run. rewrite Hn.
  assert (Hc : accountsCache w'
               = Obj.set (Js.key (JNum n)) account (accountsCache w)).
  { subst w'. unfold store_account. run. rewrite Hid. reflexivity. }
  assert (Hg : Obj.get (Js.key (JNum n)) (accountsCache w') = account)
    by (rewrite Hc; apply get_set_same).
  rewrite read_own by (rewrite Hg; exact Ht).
  rewrite Hg, Ht. reflexivity.
Qed.

End Reading.

(** ** Market data *)




Section Market.

Variable env : Env.
Variable remote : Remote.
Variable toISOString : Z -> string.



End Market.

(** ** The default account *)
















Section Default.

Variable env : Env.
Variable remote : Remote.


Lemma unreachable_request (m : Method) (p : string) (d : JsValue) (w : World) :
  unreachable remote ->
  exists e, fst (topstepxRequest env remote m p d w) = Throw e.
Proof.
  intros Hdown. rewrite topstepxRequest_unfold.
  assert (Hlogin : forall w0, exists e, fst (authenticate env remote w0)
                                         = Throw e).
  { intros w0.
    destruct (authenticate_cases env remote w0)
      as [[_ E] | [[_ [e E]] | [Hc [t [_ E]]]]];
      [rewrite E; eexists; reflexivity.. |].
    exfalso.
    pose proof (authenticate_refused env remote w0 Hc) as Hr.
    unfold next_reply in Hr. rewrite Hdown in Hr.
    destruct (Hr eq_refl) as [e E']. rewrite E' in E. discriminate E. }
  unfold ensureAuthenticated.
  destruct (needs_login (noted m p d w)).
  - destruct (Hlogin (noted m p d w)) as [e E].
    destruct (authenticate env remote (noted m p d w)) as [[[]|e'] w0];
      simpl in E; [discriminate E|]. eexists; reflexivity.
  - unfold ret. cbv beta iota.
    destruct (axiosInstance (noted m p d w)) as [i|] eqn:Ei;
      [|eexists; reflexivity].
    unfold try_catch. unfold bind at 1.
    erewrite send_with by exact Ei.
    unfold axios_request. rewrite Hdown. simpl. eexists; reflexivity.
Qed.

Lemma unreachable_loadContract (symbol : string) :
  unreachable remote ->
  respects same_caches (loadContract env remote symbol).
Proof.
  intros Hdown w. unfold loadContract, try_catch, bind.
  pose proof (topstepxRequest_same_caches env remote POST "/Contract/search"
                (contractSearch (JStr symbol)) w) as Hs.
  destruct (unreachable_request POST "/Contract/search"
              (contractSearch (JStr symbol)) w Hdown) as [e E].
  destruct (topstepxRequest env remote POST "/Contract/search"
              (contractSearch (JStr symbol)) w) as [[c|e'] wg];
    simpl in E; [discriminate E|]. exact Hs.
Qed.

Lemma unreachable_loadContracts (w : World) :
  unreachable remote ->
  exists w',
    loadContracts env remote w = (Ok tt, w')
    /\ accountsCache w' = accountsCache w
    /\ contractsCache w' = []
    /\ symbolToContractIdMap w' = [].
Proof.
  intros Hdown.
  unfold loadContracts, try_catch. step. unfold modify at 1.
  cbv beta iota zeta. step. unfold modify at 1. cbv beta iota zeta.
  match goal with
  | |- context [for_each _ _ ?w0] =>
      pose proof (respects_for_each same_caches same_caches_refl
                    same_caches_trans COMMON_SYMBOLS
                    (loadContract env remote)
                    (fun s => unreachable_loadContract s Hdown) w0)
        as (H1 & H2 & H3);
      destruct (for_each COMMON_SYMBOLS (loadContract env remote) w0)
        as [[[]|e] w']
  end; simpl in H1, H2, H3; rewrite clear_all_empty in H2, H3;
    exists w'; auto.
Qed.

(** X22. A refresh while the platform cannot be reached keeps the
    cached accounts but empties both contract maps: the accounts are
    cleared only once the account search has succeeded, the contracts
    before the first contract search is made. *)
Theorem refresh_while_unreachable (w : World) :
  unreachable remote ->
  let w' := snd (initializeData env remote w) in
  accountsCache w' = accountsCache w
  /\ contractsCache w' = []
  /\ symbolToContractIdMap w' = [].
Proof.
  intros Hdown. cbv zeta. rewrite initializeData_runs. simpl snd.
  assert (Ha : accountsCache (snd (loadAccounts env remote w))
               = accountsCache w).
  { unfold loadAccounts, try_catch, bind.
    pose proof (topstepxRequest_same_caches env remote POST "/Account/search"
                  accountSearch w) as (Hs & _).
    destruct (unreachable_request POST "/Account/search" accountSearch w
                Hdown) as [e E].
    destruct (topstepxRequest env remote POST "/Account/search"
                accountSearch w) as [[c|e'] wg];
      simpl in E; [discriminate E|]. exact Hs. }
  destruct (unreachable_loadContracts (snd (loadAccounts env remote w)) Hdown)
    as (w' & -> & H1 & H2 & H3).
  simpl. rewrite H1, Ha. auto.
Qed.

End Default.

(** * The further properties at concrete inputs *)

(** X1 at an order whose price is set to 0. *)
Lemma modify_order_witness :
  Js.get (arguments Scenario.modify_nine) "orderId" = Ok (JNum 9)
  /\ Js.get (arguments Scenario.modify_nine) "quantity" = Ok JUndefined
  /\ Js.get (arguments Scenario.modify_nine) "price" = Ok (JNum 0)
  /\ Js.get (arguments Scenario.modify_nine) "stopPrice" = Ok JUndefined
  /\ Js.truthy (JNum 9) = true
  /\ handleModifyOrder Scenario.env Scenario.grants Scenario.modify_nine
       Scenario.trading
     = wrapped "order" "Failed to modify order: "
         (topstepxRequest Scenario.env Scenario.grants POST "/Order/modify"
            (JObj [("orderId", JNum 9); ("price", JNum 0)])
            Scenario.trading).
Proof.
  repeat (split; [reflexivity|]).
  exact (modify_order_forwards_what_is_given Scenario.env Scenario.grants
           Scenario.modify_nine (JNum 9) JUndefined (JNum 0) JUndefined
           Scenario.trading eq_refl eq_refl eq_refl eq_refl eq_refl).
Defined.


(** X3 at a search that finds two contracts and asks for one. *)
Lemma search_contracts_witness :
  Js.get (arguments Scenario.search_micro) "searchText" = Ok (JStr "M")
  /\ Js.get (arguments Scenario.search_micro) "limit" = Ok (JNum 1)
  /\ Js.truthy (JStr "M") = true
  /\ fst (handleSearchContracts Scenario.env Scenario.answers_two
            Scenario.search_micro Scenario.signed_in)
     = Ok (createToolResult
             (JObj [("contracts", JArr [Scenario.mes]);
                    ("count", JNum 2)])).
Proof.
  repeat (split; [reflexivity|]).
  destruct (search_contracts_counts_all_matches Scenario.env
              Scenario.answers_two Scenario.search_micro (JStr "M") (JNum 1)
              Scenario.signed_in eq_refl eq_refl eq_refl) as (_ & A & _).
  refine (A [Scenario.mes; Scenario.mnq] 1 eq_refl eq_refl _).
  discriminate.
Defined.

(** X4 at an account summary. *)
Lemma local_tools_witness :
  In (name Scenario.summary_request) local_tools
  /\ exists res,
       callTool Scenario.env Scenario.grants Scenario.iso
         Scenario.summary_request Scenario.trading
       = (Ok res, Scenario.trading).
Proof.
  assert (H : In (name Scenario.summary_request) local_tools)
    by (simpl; tauto).
  split; [exact H|].
  exact (local_tools_change_nothing Scenario.env Scenario.grants Scenario.iso
           Scenario.summary_request Scenario.trading H).
Defined.

(** X5 at [list_positions] invoked without arguments. *)
Lemma absent_arguments_witness :
  (JUndefined = JUndefined \/ JUndefined = JNull)
  /\ callTool Scenario.env Scenario.grants Scenario.iso
       {| name := "list_positions"; arguments := JUndefined |}
       Scenario.trading
     = (Ok (createErrorResult
              [Lit "Failed to list positions: "; Thrown TypeErr]),
        Scenario.trading).
Proof.
  split; [left; reflexivity|].
  exact (proj1 (tools_need_an_arguments_object Scenario.env Scenario.grants
                  Scenario.iso JUndefined Scenario.trading
                  (or_introl eq_refl))).
Defined.


(** X9 at the first login of a process, one day later to the
    millisecond. *)
Lemma session_reuse_witness :
  let w1 := logged_in host_topstepx (JStr "t1")
              (arrive Scenario.grants (loginCall Scenario.env)
                 Scenario.fresh) in
  authenticate Scenario.env Scenario.grants Scenario.fresh = (Ok tt, w1)
  /\ Z.of_N 86400000 <= 86400000
  /\ ensureAuthenticated Scenario.env Scenario.grants (elapse 86400000 w1)
     = (Ok tt, elapse 86400000 w1).
Proof.
  intros w1.
  assert (H : Z.of_N 86400000 <= 86400000) by discriminate.
  split; [reflexivity | split; [exact H|]].
  exact (proj1 (session_is_reused_for_a_day Scenario.env Scenario.grants
                  Scenario.fresh w1 86400000 eq_refl) H).
Defined.

Lemma after_an_order_reachable (env : Env) (remote : Remote) :
  reachable env remote Scenario.iso (Scenario.after_an_order env remote).
Proof.
  unfold Scenario.after_an_order.
  apply reach_tool, reach_authenticate. exact (reach_start _ _ _ 1000).
Defined.


(** X11 at a process without credentials that was asked for an order. *)
Lemma no_credentials_witness :
  credentials_present Scenario.no_env = false
  /\ reachable Scenario.no_env Scenario.grants Scenario.iso
       (Scenario.after_an_order Scenario.no_env Scenario.grants)
  /\ sent (Scenario.after_an_order Scenario.no_env Scenario.grants) = [].
Proof.
  pose proof (after_an_order_reachable Scenario.no_env Scenario.grants) as H.
  split; [reflexivity | split; [exact H|]].
  exact (nothing_is_sent_without_credentials Scenario.no_env Scenario.grants
           Scenario.iso _ eq_refl H).
Defined.

(** X12 at a process that logged in and searched for a contract. *)
Lemma traffic_witness :
  let w := Scenario.after_an_order Scenario.env Scenario.grants_then_finds in
  reachable Scenario.env Scenario.grants_then_finds Scenario.iso w
  /\ length (sent w) = 2%nat
  /\ Forall (known_call Scenario.env) (sent w)
  /\ Forall known_request (requested w).
Proof.
  intros w.
  pose proof (after_an_order_reachable Scenario.env
                Scenario.grants_then_finds) as H.
  split; [exact H | split; [reflexivity|]].
  destruct (all_traffic_is_known Scenario.env Scenario.grants_then_finds
              Scenario.iso _ H) as (A & B & _).
  split; [exact A | exact B].
Defined.


(** X18 at account 42. *)
Lemma readable_witness :
  let w' := snd (store_account Scenario.account Scenario.signed_in) in
  Js.get Scenario.account "id" = Ok (JNum 42)
  /\ Js.truthy Scenario.account = true
  /\ Scenario.number (Js.string_of_Z 42) = JNum 42
  /\ readResource Scenario.number "topstepx://account/42" w'
     = (Ok {| res_payload := Scenario.account;
              res_uri := "topstepx://account/42" |}, w').
Proof.
  intros w'. repeat (split; [reflexivity|]).
  exact (filed_account_is_readable Scenario.number Scenario.account 42
           Scenario.signed_in eq_refl eq_refl eq_refl).
Defined.




(** X22 at a process with cached accounts and contracts. *)
Lemma unreachable_witness :
  let w' := snd (initializeData Scenario.env Scenario.down
                   Scenario.trading) in
  unreachable Scenario.down
  /\ accountsCache w' = [("42", Scenario.account)]
  /\ contractsCache w' = []
  /\ symbolToContractIdMap w' = [].
Proof.
  intros w'.
  assert (H : unreachable Scenario.down).
  { intros n c. unfold Scenario.down, Scenario.scripted.
    destruct n; reflexivity. }
  split; [exact H|].
  exact (refresh_while_unreachable Scenario.env Scenario.down
           Scenario.trading H).
Defined.

(** The lookup of a symbol that names an inherited property: the value
    every object has under that name is taken for a cached contract,
    and nothing is requested. *)
Example inherited_name_is_taken_as_cached :
  getContractBySymbol Scenario.env Scenario.answers_flat (JStr "constructor")
    Scenario.with_account
  = (Ok (Obj.method "Object" 1), Scenario.with_account).
Proof. reflexivity. Qed.
